(** * generate_code_api: the request issuer, verified

    The repository is one script, [apis/generate_code_api测试.py]:
<<
    conn = http.client.HTTPConnection("127.0.0.1", 8000)
    payload = json.dumps({"question": "生成一个贪吃蛇项目", "language": "python"})
    headers = {'User-Agent': 'Apifox/1.0.0 (https://apifox.com)',
               'Content-Type': 'application/json'}
    conn.request("POST", "/generate", payload, headers)
    res = conn.getresponse()
    data = res.read()
    print(data.decode("utf-8"))
>>
    The development embeds the script statement by statement in a small
    monad of process state (requests issued, text on standard output) with
    three ways for a statement to end: a value, a raised exception, or a
    call that never returns.  The CPython library calls the script makes
    ([json.dumps], [HTTPConnection.request], [bytes.decode], [print]) are
    modelled next to it; the network, the server and the stream behind
    standard output are an arbitrary environment. *)

From Stdlib Require Import Strings.Ascii Strings.String Strings.Byte.
From Stdlib Require Import List NArith ZArith Lia Zify Bool.
Import ListNotations.
Local Open Scope N_scope.

(** ** Python values *)

(** A [str] is a sequence of Unicode code points ([ord] of each character),
    a [bytes] object a sequence of octets. *)
Definition char := N.
Definition str := list char.
Definition bytes := list byte.

(** A [dict] whose keys and values are [str], in insertion order. *)
Definition dict := list (str * str).

(** The ASCII literals of the source. *)
Definition lit (s : string) : str := map N_of_ascii (list_ascii_of_string s).

Definition QUOTE : char := 34.
Definition BACKSLASH : char := 92.

(** ** json.dumps *)

Module json.

Definition hexdigit (d : N) : char :=
  nth (N.to_nat d) (lit "0123456789abcdef") 48.

Fixpoint hex_digits (fuel : nat) (n : N) (acc : str) : str :=
  match fuel with
  | O => acc
  | S fuel' =>
      let acc' := hexdigit (n mod 16) :: acc in
      if n / 16 =? 0 then acc' else hex_digits fuel' (n / 16) acc'
  end.

(** ['{0:04x}'.format(n)]: lower-case hexadecimal, zero-padded to four. *)
Definition format_04x (n : N) : str :=
  let d := hex_digits (S (N.to_nat (N.size n))) n [] in
  repeat 48 (4 - length d) ++ d.

(** [ESCAPE_ASCII] on one character: the pattern matches a backslash, a
    double quote, and every character outside the range space to tilde. *)
Definition ESCAPE_ASCII (c : char) : bool :=
  (c =? BACKSLASH) || (c =? QUOTE) || negb ((32 <=? c) && (c <=? 126)).

(** [ESCAPE_DCT], with the [setdefault] entries for [chr(i)], [i < 0x20]. *)
Definition ESCAPE_DCT (c : char) : option str :=
  if c =? BACKSLASH then Some [BACKSLASH; BACKSLASH]
  else if c =? QUOTE then Some [BACKSLASH; QUOTE]
  else if c =? 8 then Some (lit "\b")
  else if c =? 12 then Some (lit "\f")
  else if c =? 10 then Some (lit "\n")
  else if c =? 13 then Some (lit "\r")
  else if c =? 9 then Some (lit "\t")
  else if c <? 32 then Some (lit "\u" ++ format_04x c)
  else None.

(** The [replace] callback of [py_encode_basestring_ascii]. *)
Definition replace (c : char) : str :=
  match ESCAPE_DCT c with
  | Some e => e
  | None =>
      let n := c in
      if n <? 65536 then lit "\u" ++ format_04x n
      else
        let n := n - 65536 in
        let s1 := N.lor 55296 (N.land (N.shiftr n 10) 1023) in
        let s2 := N.lor 56320 (N.land n 1023) in
        lit "\u" ++ format_04x s1 ++ lit "\u" ++ format_04x s2
  end.

Definition encode_basestring_ascii (s : str) : str :=
  [QUOTE] ++ flat_map (fun c => if ESCAPE_ASCII c then replace c else [c]) s
          ++ [QUOTE].

(** [_iterencode_dict] with the default separators [(', ', ': ')]. *)
Fixpoint iterencode_items (first : bool) (items : dict) : str :=
  match items with
  | [] => []
  | (key, value) :: rest =>
      (if first then [] else lit ", ")
        ++ encode_basestring_ascii key ++ lit ": "
        ++ encode_basestring_ascii value
        ++ iterencode_items false rest
  end.

Definition dumps (obj : dict) : str :=
  match obj with
  | [] => lit "{}"
  | _ => lit "{" ++ iterencode_items true obj ++ lit "}"
  end.

(** *** json.loads, for an object whose values are strings

    The reading of a body "parsed as JSON": [py_scanstring] in strict
    mode and [JSONObject], with the pairs collected into a [dict]. *)

Definition hexval (c : char) : option N :=
  if (48 <=? c) && (c <=? 57) then Some (c - 48)
  else if (97 <=? c) && (c <=? 102) then Some (c - 87)
  else if (65 <=? c) && (c <=? 70) then Some (c - 55)
  else None.

Definition hex4 (a b c d : char) : option N :=
  match hexval a, hexval b, hexval c, hexval d with
  | Some x, Some y, Some z, Some w => Some (((x * 16 + y) * 16 + z) * 16 + w)
  | _, _, _, _ => None
  end.

(** [BACKSLASH]: the one-character escapes. *)
Definition BACKSLASH_DCT (c : char) : option char :=
  if c =? QUOTE then Some QUOTE
  else if c =? BACKSLASH then Some BACKSLASH
  else if c =? 47 then Some 47
  else if c =? 98 then Some 8
  else if c =? 102 then Some 12
  else if c =? 110 then Some 10
  else if c =? 114 then Some 13
  else if c =? 116 then Some 9
  else None.

(** [scanstring], entered after the opening quote: the decoded string
    and what follows the closing quote. *)
Fixpoint scanstring (s : str) (chunks : str) : option (str * str) :=
  match s with
  | [] => None
  | c :: r =>
      if c =? QUOTE then Some (rev chunks, r)
      else if c =? BACKSLASH then
        match r with
        | [] => None
        | esc :: r1 =>
            if esc =? 117 then
              match r1 with
              | a :: b :: c' :: d :: r2 =>
                  match hex4 a b c' d with
                  | None => None
                  | Some uni =>
                      match r2 with
                      | bs :: u :: a2 :: b2 :: c2 :: d2 :: r3 =>
                          match hex4 a2 b2 c2 d2 with
                          | Some uni2 =>
                              if (55296 <=? uni) && (uni <=? 56319)
                                 && (bs =? BACKSLASH) && (u =? 117)
                                 && (56320 <=? uni2) && (uni2 <=? 57343)
                              then scanstring r3
                                     (65536 + (N.lor (N.shiftl (uni - 55296) 10)
                                                     (uni2 - 56320)) :: chunks)
                              else scanstring r2 (uni :: chunks)
                          | None => scanstring r2 (uni :: chunks)
                          end
                      | _ => scanstring r2 (uni :: chunks)
                      end
                  end
              | _ => None
              end
            else
              match BACKSLASH_DCT esc with
              | Some ch => scanstring r1 (ch :: chunks)
              | None => None
              end
        end
      else if c <? 32 then None
      else scanstring r (c :: chunks)
  end.

Definition is_ws (c : char) : bool :=
  (c =? 32) || (c =? 9) || (c =? 10) || (c =? 13).

Fixpoint skip_ws (s : str) : str :=
  match s with
  | c :: r => if is_ws c then skip_ws r else s
  | [] => []
  end.

(** [d[key] = value]: a key already present keeps its place. *)
Fixpoint setitem (d : dict) (key value : str) : dict :=
  match d with
  | [] => [(key, value)]
  | (k, v) :: rest =>
      if list_eq_dec N.eq_dec k key then (k, value) :: rest
      else (k, v) :: setitem rest key value
  end.

(** After a quote: one string, then the rest with white space dropped. *)
Definition quoted (s : str) : option (str * str) :=
  match s with
  | q :: r =>
      if q =? QUOTE
      then option_map (fun sr => (fst sr, skip_ws (snd sr))) (scanstring r [])
      else None
  | [] => None
  end.

(** The member loop of [JSONObject]; [s] starts at a key. *)
Fixpoint members (fuel : nat) (s : str) (pairs : dict) : option (dict * str) :=
  match fuel with
  | O => None
  | S fuel' =>
      match quoted s with
      | Some (key, colon :: r1) =>
          if colon =? 58 then
            match quoted (skip_ws r1) with
            | Some (value, sep :: r2) =>
                let pairs' := setitem pairs key value in
                if sep =? 125 then Some (pairs', r2)
                else if sep =? 44 then members fuel' (skip_ws r2) pairs'
                else None
            | _ => None
            end
          else None
      | _ => None
      end
  end.

Definition loads (s : str) : option dict :=
  match skip_ws s with
  | open :: r =>
      if open =? 123 then
        match skip_ws r with
        | [] => None
        | c :: r1 =>
            let result :=
              if c =? 125 then Some ([], r1)
              else members (List.length s) (c :: r1) [] in
            match result with
            | Some (d, rest) =>
                match skip_ws rest with [] => Some d | _ => None end
            | None => None
            end
        end
      else None
  | [] => None
  end.

End json.

(** ** Codecs *)

Definition byte_of_N (n : N) : byte :=
  match Byte.of_N n with Some b => b | None => x00 end.

(** [s.encode('latin-1')], strict: [None] is [UnicodeEncodeError]. *)
Fixpoint latin1_encode (s : str) : option bytes :=
  match s with
  | [] => Some []
  | c :: rest =>
      if c <? 256 then option_map (cons (byte_of_N c)) (latin1_encode rest)
      else None
  end.

Definition is_cont (b : N) : bool := (128 <=? b) && (b <? 192).
Definition is_surrogate (c : char) : bool := (55296 <=? c) && (c <? 57344).

(** [b.decode('utf-8')], strict: [None] is [UnicodeDecodeError].  Overlong
    forms, surrogates, code points above U+10FFFF, stray continuation
    bytes and truncated sequences are all rejected. *)
Fixpoint utf8_decode (bs : bytes) : option str :=
  match bs with
  | [] => Some []
  | b0 :: r0 =>
      let c0 := Byte.to_N b0 in
      if c0 <? 128 then option_map (cons c0) (utf8_decode r0)
      else if c0 <? 194 then None
      else if c0 <? 224 then
        match r0 with
        | b1 :: r1 =>
            let c1 := Byte.to_N b1 in
            if is_cont c1
            then option_map
                   (cons (N.lor (N.shiftl (N.land c0 31) 6) (N.land c1 63)))
                   (utf8_decode r1)
            else None
        | _ => None
        end
      else if c0 <? 240 then
        match r0 with
        | b1 :: b2 :: r2 =>
            let c1 := Byte.to_N b1 in
            let c2 := Byte.to_N b2 in
            let cp := N.lor (N.shiftl (N.land c0 15) 12)
                        (N.lor (N.shiftl (N.land c1 63) 6) (N.land c2 63)) in
            if is_cont c1 && is_cont c2 && (2048 <=? cp) && negb (is_surrogate cp)
            then option_map (cons cp) (utf8_decode r2)
            else None
        | _ => None
        end
      else if c0 <? 245 then
        match r0 with
        | b1 :: b2 :: b3 :: r3 =>
            let c1 := Byte.to_N b1 in
            let c2 := Byte.to_N b2 in
            let c3 := Byte.to_N b3 in
            let cp := N.lor (N.shiftl (N.land c0 7) 18)
                        (N.lor (N.shiftl (N.land c1 63) 12)
                           (N.lor (N.shiftl (N.land c2 63) 6) (N.land c3 63))) in
            if is_cont c1 && is_cont c2 && is_cont c3
               && (65536 <=? cp) && (cp <? 1114112)
            then option_map (cons cp) (utf8_decode r3)
            else None
        | _ => None
        end
      else None
  end.

(** [s.encode('utf-8')], strict: lone surrogates (and anything that is not a
    code point) are refused. *)
Definition utf8_encode_char (c : char) : option bytes :=
  if c <? 128 then Some [byte_of_N c]
  else if c <? 2048 then
    Some [byte_of_N (N.lor 192 (N.shiftr c 6));
          byte_of_N (N.lor 128 (N.land c 63))]
  else if c <? 65536 then
    if is_surrogate c then None
    else Some [byte_of_N (N.lor 224 (N.shiftr c 12));
               byte_of_N (N.lor 128 (N.land (N.shiftr c 6) 63));
               byte_of_N (N.lor 128 (N.land c 63))]
  else if c <? 1114112 then
    Some [byte_of_N (N.lor 240 (N.shiftr c 18));
          byte_of_N (N.lor 128 (N.land (N.shiftr c 12) 63));
          byte_of_N (N.lor 128 (N.land (N.shiftr c 6) 63));
          byte_of_N (N.lor 128 (N.land c 63))]
  else None.

Fixpoint utf8_encode (s : str) : option bytes :=
  match s with
  | [] => Some []
  | c :: rest =>
      match utf8_encode_char c, utf8_encode rest with
      | Some b, Some bs => Some (b ++ bs)
      | _, _ => None
      end
  end.

(** ** Outcomes, exceptions and the process monad *)

Inductive exn : Type :=
| UnicodeEncodeError
| UnicodeDecodeError
| ConnectionRefusedError
| ConnectionResetError
| BrokenPipeError
| TimeoutError
| RemoteDisconnected
| BadStatusLine
| IncompleteRead
| ResponseNotReady
| ValueError
| InvalidURL
| OSError (errno : N).

(** How a call ends: it returns, it raises, or it never comes back (a
    blocking socket call on a silent peer; the script sets no timeout). *)
Inductive outcome (A : Type) : Type :=
| Returns (a : A)
| Raises (e : exn)
| Blocks.
Arguments Returns {A} a.
Arguments Raises {A} e.
Arguments Blocks {A}.

Module http_client.

Record HTTPConnection : Type := { host : str; port : N }.

(** One call of [HTTPConnection.request], after the encoding of its
    arguments: the caller's headers as passed, the body as octets, and
    [r_octets], everything the call writes to the socket. *)
Record HTTPRequest : Type := {
  r_target : HTTPConnection;
  r_method : str;
  r_url : str;
  r_headers : list (str * str);
  r_body : bytes;
  r_octets : bytes
}.

(** What [getresponse] hands back: the status line's code and what
    [read()] on the object will do. *)
Record HTTPResponse : Type := {
  status : N;
  content : outcome bytes
}.

(** The network and the server, seen from the client: given the octets
    written to a connection to [host:port], how connecting and writing
    ends and how waiting for the response ends. *)
Record network : Type := {
  transmit : HTTPConnection -> bytes -> outcome unit;
  respond : HTTPConnection -> bytes -> outcome HTTPResponse
}.

Definition default_port : N := 80.
Definition CRLF : bytes := [x0d; x0a].

(** A pure library step: a value or the exception it raises. *)
Inductive result (A : Type) : Type :=
| Ok (a : A)
| Err (e : exn).
Arguments Ok {A} a.
Arguments Err {A} e.

Definition and_then {A B} (r : result A) (k : A -> result B) : result B :=
  match r with
  | Ok a => k a
  | Err e => Err e
  end.

(** An encode step: [UnicodeEncodeError] where the codec has no octet. *)
Definition encoded (o : option bytes) : result bytes :=
  match o with
  | Some b => Ok b
  | None => Err UnicodeEncodeError
  end.

(** [s.encode('ascii')], strict. *)
Fixpoint ascii_encode (s : str) : option bytes :=
  match s with
  | [] => Some []
  | c :: rest =>
      if c <? 128 then option_map (cons (byte_of_N c)) (ascii_encode rest)
      else None
  end.

(** [k.lower()] on the letters a header name can hold. *)
Definition lower (s : str) : str :=
  map (fun c => if (65 <=? c) && (c <=? 90) then c + 32 else c) s.

Fixpoint str_eqb (a b : str) : bool :=
  match a, b with
  | [], [] => true
  | x :: a', y :: b' => (x =? y) && str_eqb a' b'
  | _, _ => false
  end.

Definition member (name : str) (names : list str) : bool :=
  existsb (str_eqb name) names.

Fixpoint dec_digits (fuel : nat) (n : N) (acc : str) : str :=
  match fuel with
  | O => acc
  | S fuel' =>
      let acc' := (48 + n mod 10) :: acc in
      if n / 10 =? 0 then acc' else dec_digits fuel' (n / 10) acc'
  end.

(** [str(n)] for a non-negative [int]. *)
Definition decimal (n : N) : str :=
  dec_digits (S (N.to_nat (N.size n))) n [].

(** [_contains_disallowed_method_pchar_re]: a control character. *)
Definition disallowed_method_char (c : char) : bool := c <? 32.

(** [_contains_disallowed_url_pchar_re]: a control character, a space or
    DEL. *)
Definition disallowed_url_char (c : char) : bool := (c <=? 32) || (c =? 127).

(** White space of a bytes pattern: space, tab, LF, VT, FF, CR. *)
Definition is_space (b : N) : bool := (b =? 32) || ((9 <=? b) && (b <=? 13)).

(** [_is_legal_header_name]: a first octet that is neither a colon nor
    white space, then octets none of which is a colon, a CR or a LF. *)
Definition is_legal_header_name (name : bytes) : bool :=
  match name with
  | [] => false
  | b :: rest =>
      negb (Byte.to_N b =? 58) && negb (is_space (Byte.to_N b))
      && forallb (fun x => negb ((Byte.to_N x =? 58) || (Byte.to_N x =? 13)
                                 || (Byte.to_N x =? 10))) rest
  end.

(** [_is_illegal_header_value]: somewhere a LF not followed by a space or
    a tab, or a CR not followed by a space, a tab or a LF. *)
Fixpoint is_illegal_header_value (value : bytes) : bool :=
  match value with
  | [] => false
  | b :: rest =>
      let next := match rest with
                  | [] => None
                  | n :: _ => Some (Byte.to_N n)
                  end in
      let continued (or_lf : bool) :=
        match next with
        | Some n => (n =? 32) || (n =? 9) || (or_lf && (n =? 10))
        | None => false
        end in
      if Byte.to_N b =? 10
      then negb (continued false) || is_illegal_header_value rest
      else if Byte.to_N b =? 13
           then negb (continued true) || is_illegal_header_value rest
           else is_illegal_header_value rest
  end.

(** [putheader(header, value)] for [str] arguments: the name in ASCII and
    checked, the value in Latin-1 and checked, one buffered line. *)
Definition putheader (header value : str) : result bytes :=
  and_then (encoded (ascii_encode header)) (fun name =>
  if negb (is_legal_header_name name) then Err ValueError
  else
    and_then (encoded (latin1_encode value)) (fun v =>
    if is_illegal_header_value v then Err ValueError
    else Ok (name ++ [x3a; x20] ++ v))).

(** The value [putrequest] gives the Host header when the url is a path
    and the host is ASCII: brackets around a host with a colon in it, the
    port when it is not the default one.  The two other branches of
    [putrequest] are not modelled: a url that starts with http (the value
    then comes from the url) and a host that is not ASCII (IDNA). *)
Definition host_header (c : HTTPConnection) : str :=
  let h := if existsb (N.eqb 58) (host c)
           then lit "[" ++ host c ++ lit "]" else host c in
  if port c =? default_port then h
  else h ++ lit ":" ++ decimal (port c).

Fixpoint putheaders (hs : list (str * str)) : result (list bytes) :=
  match hs with
  | [] => Ok []
  | (hdr, value) :: rest =>
      and_then (putheader hdr value) (fun l =>
      and_then (putheaders rest) (fun ls => Ok (l :: ls)))
  end.

(** [url or '/']. *)
Definition url_or_slash (url : str) : str :=
  match url with
  | [] => lit "/"
  | _ => url
  end.

(** [putrequest(method, url)]: both are checked, then the request line is
    encoded; Host and Accept-Encoding follow unless the caller set them. *)
Definition putrequest (c : HTTPConnection) (method url : str)
    (skip_host skip_accept_encoding : bool) : result (list bytes) :=
  if existsb disallowed_method_char method then Err ValueError
  else
    let url := url_or_slash url in
    if existsb disallowed_url_char url then Err InvalidURL
    else
      and_then (encoded (ascii_encode (method ++ lit " " ++ url ++ lit " HTTP/1.1")))
        (fun request =>
      and_then (if skip_host then Ok []
                else and_then (putheader (lit "Host") (host_header c))
                       (fun l => Ok [l])) (fun host_line =>
      and_then (if skip_accept_encoding then Ok []
                else and_then (putheader (lit "Accept-Encoding") (lit "identity"))
                       (fun l => Ok [l])) (fun accept_line =>
      Ok (request :: host_line ++ accept_line)))).

(** The buffered lines of [_send_request] for a [str] body, in the order
    the library emits them: what [putrequest] buffers, Content-Length
    ([len(body)]) unless the caller set it or Transfer-Encoding, then the
    caller's headers in dict order.  The first step that raises decides
    the exception. *)
Definition header_lines (c : HTTPConnection) (method url body : str)
    (headers : list (str * str)) : result (list bytes) :=
  let header_names := map (fun kv => lower (fst kv)) headers in
  and_then (putrequest c method url
              (member (lit "host") header_names)
              (member (lit "accept-encoding") header_names)) (fun head =>
  and_then (if member (lit "content-length") header_names then Ok []
            else if member (lit "transfer-encoding") header_names then Ok []
            else and_then (putheader (lit "Content-Length")
                             (decimal (N.of_nat (List.length body))))
                   (fun l => Ok [l])) (fun length_line =>
  and_then (putheaders headers) (fun caller_lines =>
  Ok (head ++ length_line ++ caller_lines)))).

(** [b"\r\n".join(buffer + [b"", b""])]. *)
Definition join_lines (buffer : list bytes) : bytes :=
  flat_map (fun l => l ++ CRLF) buffer ++ CRLF.

(** [_send_request] up to the point where the socket is needed: the
    message head, and the [str] body encoded as ISO-8859-1. *)
Definition encode_request (c : HTTPConnection) (method url body : str)
    (headers : list (str * str)) : result HTTPRequest :=
  and_then (header_lines c method url body headers) (fun buffer =>
  and_then (encoded (latin1_encode body)) (fun message_body =>
  Ok {| r_target := c; r_method := method; r_url := url_or_slash url;
        r_headers := headers; r_body := message_body;
        r_octets := join_lines buffer ++ message_body |})).

End http_client.
Import http_client.

Record process : Type := {
  issued : list HTTPRequest;
  stdout : str
}.

Definition py (A : Type) : Type := process -> outcome A * process.

Definition ret {A} (a : A) : py A := fun p => (Returns a, p).

Definition bind {A B} (c : py A) (k : A -> py B) : py B :=
  fun p =>
    match c p with
    | (Returns a, p') => k a p'
    | (Raises e, p') => (Raises e, p')
    | (Blocks, p') => (Blocks, p')
    end.

Definition raise {A} (e : exn) : py A := fun p => (Raises e, p).

(** A call into the environment: nothing of the process changes. *)
Definition call {A} (o : outcome A) : py A := fun p => (o, p).

Notation "x <- c ;; k" := (bind c (fun x => k))
  (at level 61, c at next level, right associativity).
Notation "c ;;; k" := (bind c (fun _ => k))
  (at level 61, right associativity).


(** ** The library calls, in the monad *)

(** [conn.request(method, url, body, headers)]: encode, then connect (the
    connection opens on first use) and write.  The request counts as issued
    once the library has something to write. *)
Definition HTTPConnection_request (net : network) (conn : HTTPConnection)
    (method url body : str) (headers : list (str * str)) : py unit :=
  match encode_request conn method url body headers with
  | Err e => raise e
  | Ok r =>
      fun p =>
        (transmit net conn (r_octets r),
         {| issued := issued p ++ [r]; stdout := stdout p |})
  end.

(** [conn.getresponse()]: wait for the answer to what was last written. *)
Definition HTTPConnection_getresponse (net : network) (conn : HTTPConnection)
    : py HTTPResponse :=
  fun p =>
    match last (map Some (issued p)) None with
    | Some r => (respond net conn (r_octets r), p)
    | None => (Raises ResponseNotReady, p)
    end.

(** [res.read()]. *)
Definition HTTPResponse_read (res : HTTPResponse) : py bytes :=
  call (content res).

(** [data.decode("utf-8")]. *)
Definition bytes_decode_utf8 (data : bytes) : py str :=
  match utf8_decode data with
  | Some text => ret text
  | None => raise UnicodeDecodeError
  end.

(** [sys.stdout] as [print] meets it: how printing one text ends.
    [Returns]: the text and its newline are written.  [Raises]: the stream
    refuses the text, with UnicodeEncodeError when its encoding cannot
    represent it or with the error of the write, and nothing of it is
    written.  [Blocks]: the write never returns. *)
Record TextIO : Type := {
  write : str -> outcome unit
}.

(** [print(text)]: the text, then a newline, on [sys.stdout]. *)
Definition print (out : TextIO) (text : str) : py unit :=
  fun p =>
    match write out text with
    | Returns _ =>
        (Returns tt,
         {| issued := issued p; stdout := stdout p ++ text ++ [10] |})
    | Raises e => (Raises e, p)
    | Blocks => (Blocks, p)
    end.

(** ** The script *)

(** The nine characters of the prompt, U+751F U+6210 U+4E00 U+4E2A U+8D2A
    U+5403 U+86C7 U+9879 U+76EE. *)
Definition question : str :=
  [29983; 25104; 19968; 20010; 36138; 21507; 34503; 39033; 30446].

Section Script.

Variable net : network.
Variable out : TextIO.

Definition conn : HTTPConnection :=
  {| host := lit "127.0.0.1"; port := 8000 |}.

Definition payload : str :=
  json.dumps [ (lit "question", question);
               (lit "language", lit "python") ].

Definition headers : list (str * str) :=
  [ (lit "User-Agent", lit "Apifox/1.0.0 (https://apifox.com)");
    (lit "Content-Type", lit "application/json") ].

Definition script : py unit :=
  HTTPConnection_request net conn (lit "POST") (lit "/generate") payload headers ;;;
  res <- HTTPConnection_getresponse net conn ;;
  data <- HTTPResponse_read res ;;
  text <- bytes_decode_utf8 data ;;
  print out text.

End Script.

Definition start : process := {| issued := []; stdout := [] |}.

(** One run of the script against a network and a standard output: how
    the process ends ([Returns tt]: normal exit; [Raises e]: unhandled
    exception, traceback and non-zero exit; [Blocks]: it hangs) and what
    it has done by then. *)
Definition run (net : network) (out : TextIO) : outcome unit * process :=
  script net out start.


(** [json.loads(body)] on octets: UTF-8, then the parser. *)
Definition loads_bytes (b : bytes) : option dict :=
  match utf8_decode b with
  | Some s => json.loads s
  | None => None
  end.

(** ** What the request is expected to be *)

Definition quote (s : str) : str := [QUOTE] ++ s ++ [QUOTE].

Definition ascii_bytes (s : str) : bytes := map byte_of_N s.

(** The JSON text with the nine characters of the question escaped. *)
Definition escaped_json_text : str :=
  lit "{" ++ quote (lit "question") ++ lit ": "
    ++ quote (lit "\u751f\u6210\u4e00\u4e2a\u8d2a\u5403\u86c7\u9879\u76ee")
    ++ lit ", " ++ quote (lit "language") ++ lit ": "
    ++ quote (lit "python") ++ lit "}".

(** The JSON text with the nine characters of the question themselves. *)
Definition literal_json_text : str :=
  lit "{" ++ quote (lit "question") ++ lit ": " ++ quote question
    ++ lit ", " ++ quote (lit "language") ++ lit ": "
    ++ quote (lit "python") ++ lit "}".

Definition message_head : list str :=
  [ lit "POST /generate HTTP/1.1";
    lit "Host: 127.0.0.1:8000";
    lit "Accept-Encoding: identity";
    lit "Content-Length: 92";
    lit "User-Agent: Apifox/1.0.0 (https://apifox.com)";
    lit "Content-Type: application/json" ].

Definition generate_request : HTTPRequest :=
  {| r_target := {| host := lit "127.0.0.1"; port := 8000 |};
     r_method := lit "POST";
     r_url := lit "/generate";
     r_headers :=
       [ (lit "User-Agent", lit "Apifox/1.0.0 (https://apifox.com)");
         (lit "Content-Type", lit "application/json") ];
     r_body := ascii_bytes escaped_json_text;
     r_octets := join_lines (map ascii_bytes message_head)
                   ++ ascii_bytes escaped_json_text |}.

(** The process once the request has been issued and nothing printed. *)
Definition requested : process :=
  {| issued := [generate_request]; stdout := [] |}.

(** A network on which the request goes through and the response [res]
    comes back. *)
Definition answering (res : HTTPResponse) : network :=
  {| transmit := fun _ _ => Returns tt;
     respond := fun _ _ => Returns res |}.

(** ** Sample servers and networks *)

Definition status_ok_text : str :=
  lit "{" ++ quote (lit "status") ++ lit ":" ++ quote (lit "ok") ++ lit "}".

Definition ok_response : HTTPResponse :=
  {| status := 200; content := Returns (ascii_bytes status_ok_text) |}.

(** A 200 response whose body is the prompt itself, in UTF-8. *)
Definition echo_response : HTTPResponse :=
  {| status := 200;
     content := Returns (list_byte_of_string "生成一个贪吃蛇项目") |}.

Definition not_found_response : HTTPResponse :=
  {| status := 404; content := Returns (ascii_bytes (lit "Not Found")) |}.

(** A body that is not UTF-8: a lone 0xFF, and an overlong slash. *)
Definition invalid_response : HTTPResponse :=
  {| status := 200; content := Returns [xff] |}.

Definition overlong_response : HTTPResponse :=
  {| status := 200; content := Returns [xc0; xaf] |}.

(** Nobody listens on the port. *)
Definition refusing : network :=
  {| transmit := fun _ _ => Raises ConnectionRefusedError;
     respond := fun _ _ => Raises ResponseNotReady |}.

(** The connection attempt times out in the operating system. *)
Definition timing_out : network :=
  {| transmit := fun _ _ => Raises TimeoutError;
     respond := fun _ _ => Raises ResponseNotReady |}.

(** The server takes the request and closes without a response. *)
Definition hanging_up : network :=
  {| transmit := fun _ _ => Returns tt;
     respond := fun _ _ => Raises RemoteDisconnected |}.

(** The server closes in the middle of the body. *)
Definition truncating : network :=
  answering {| status := 200; content := Raises IncompleteRead |}.

(** The server takes the request and stays silent, connection open. *)
Definition silent : network :=
  {| transmit := fun _ _ => Returns tt;
     respond := fun _ _ => Blocks |}.

(** A standard output in UTF-8: it takes every text that has an
    encoding. *)
Definition utf8_stdout : TextIO :=
  {| write := fun s => match utf8_encode s with
                       | Some _ => Returns tt
                       | None => Raises UnicodeEncodeError
                       end |}.

(** A standard output in ASCII: it refuses a text with a character above
    0x7F. *)
Definition ascii_stdout : TextIO :=
  {| write := fun s => if forallb (fun c => c <? 128) s then Returns tt
                       else Raises UnicodeEncodeError |}.

(** What the run does with a body it has read in full. *)
Definition shown (out : TextIO) (data : bytes) : outcome unit * process :=
  match utf8_decode data with
  | None => (Raises UnicodeDecodeError, requested)
  | Some text =>
      match write out text with
      | Returns _ =>
          (Returns tt,
           {| issued := [generate_request]; stdout := text ++ [10] |})
      | Raises e => (Raises e, requested)
      | Blocks => (Blocks, requested)
      end
  end.

(** The transport fails with [e] before a complete response is in: while
    connecting or writing, while waiting for the response, or while reading
    the body. *)
Inductive transport_fails (net : network) (e : exn) : Prop :=
| fails_in_request :
    transmit net conn (r_octets generate_request) = Raises e ->
    transport_fails net e
| fails_in_getresponse :
    transmit net conn (r_octets generate_request) = Returns tt ->
    respond net conn (r_octets generate_request) = Raises e ->
    transport_fails net e
| fails_in_read : forall res,
    transmit net conn (r_octets generate_request) = Returns tt ->
    respond net conn (r_octets generate_request) = Returns res ->
    content res = Raises e ->
    transport_fails net e.

Definition printable (c : char) : Prop := 32 <= c <= 126.

(** ** Further definitions *)

(** A Unicode scalar value: a code point that is not a surrogate. *)
Definition scalar (c : char) : Prop :=
  c < 55296 \/ 57344 <= c < 1114112.

(** A dict item whose key and value hold scalar values only. *)
Definition scalar_item (kv : str * str) : Prop :=
  Forall scalar (fst kv) /\ Forall scalar (snd kv).

(** What [encode_basestring_ascii] writes for one character. *)
Definition esc (c : char) : str :=
  if json.ESCAPE_ASCII c then json.replace c else [c].

(** One [d[key] = value] of the parser's loop, on a pair. *)
Definition store (d : dict) (kv : str * str) : dict :=
  json.setitem d (fst kv) (snd kv).

(** [int(s)] for a string of decimal digits. *)
Definition parse_decimal (s : str) : N :=
  fold_left (fun a c => 10 * a + (c - 48)) s 0.

Definition digit (c : char) : Prop := 48 <= c <= 57.

(** A host [HTTPConnection] takes as it is: ASCII, no control character,
    no space. *)
Definition plain_host (h : str) : bool :=
  forallb (fun c => (33 <=? c) && (c <=? 126)) h.

(** [url.startswith('http')]. *)
Definition starts_with_http (url : str) : bool :=
  match url with
  | 104 :: 116 :: 116 :: 112 :: _ => true
  | _ => false
  end.

(** A dict with control characters, a quote, a backslash, DEL, a Latin-1
    letter and a character outside the basic plane. *)
Definition sample_object : dict :=
  [ (lit "question", question);
    (lit "mixed", [128512; 10; 34; 92; 127; 233; 7]) ].

Definition server_error_response : HTTPResponse :=
  {| status := 500; content := Returns (ascii_bytes status_ok_text) |}.




(** * Properties *)

Ltac nlia := Zify.zify; Z.to_euclidean_division_equations; lia.

(** ** Arithmetic of the UTF-8 bit patterns *)

Section Bits.


Lemma land_mul_pow2_small a b k : b < 2 ^ k -> N.land (a * 2 ^ k) b = 0.
Proof.
  intros Hb. apply N.bits_inj; intros i.
  rewrite N.land_spec, N.bits_0.
  destruct (N.lt_ge_cases i k) as [Hi|Hi].
  - rewrite N.mul_pow2_bits_low by exact Hi. reflexivity.
  - rewrite <- (N.mod_small b (2 ^ k)) by exact Hb.
    rewrite N.mod_pow2_bits_high by exact Hi.
    apply Bool.andb_false_r.
Qed.

Lemma lor_add a b k : b < 2 ^ k -> N.lor (a * 2 ^ k) b = a * 2 ^ k + b.
Proof.
  intros Hb. pose proof (land_mul_pow2_small a b k Hb) as H0.
  rewrite <- N.lxor_lor by exact H0.
  symmetry. apply N.add_nocarry_lxor. exact H0.
Qed.

Lemma lor_shiftl a b k : b < 2 ^ k -> N.lor (N.shiftl a k) b = a * 2 ^ k + b.
Proof. intros Hb. rewrite N.shiftl_mul_pow2. apply lor_add. exact Hb. Qed.

Lemma lor_lead c z k : c mod 2 ^ k = 0 -> z < 2 ^ k -> N.lor c z = c + z.
Proof.
  intros Hc Hz.
  assert (E : c = c / 2 ^ k * 2 ^ k).
  { pose proof (N.div_mod' c (2 ^ k)) as D. rewrite Hc in D. lia. }
  rewrite E at 1. rewrite lor_add by exact Hz. rewrite <- E. reflexivity.
Qed.

Lemma land_low a k : N.land a (2 ^ k - 1) = a mod 2 ^ k.
Proof. rewrite <- N.land_ones. f_equal. rewrite N.ones_equiv. symmetry. apply N.pred_sub. Qed.

Lemma cp2_eq c0 c1 :
  N.lor (N.shiftl (N.land c0 31) 6) (N.land c1 63) = c0 mod 32 * 64 + c1 mod 64.
Proof.
  change 31 with (2 ^ 5 - 1). change 63 with (2 ^ 6 - 1).
  rewrite !land_low. rewrite lor_shiftl by (apply N.mod_lt; discriminate).
  reflexivity.
Qed.

Lemma cp3_eq c0 c1 c2 :
  N.lor (N.shiftl (N.land c0 15) 12)
    (N.lor (N.shiftl (N.land c1 63) 6) (N.land c2 63))
  = c0 mod 16 * 4096 + (c1 mod 64 * 64 + c2 mod 64).
Proof.
  change 15 with (2 ^ 4 - 1). change 63 with (2 ^ 6 - 1).
  rewrite !land_low.
  rewrite (lor_shiftl _ (c2 mod 2 ^ 6)) by (apply N.mod_lt; discriminate).
  rewrite lor_shiftl; [reflexivity|].
  change (2 ^ 6) with 64; change (2 ^ 12) with 4096. nlia.
Qed.

Lemma cp4_eq c0 c1 c2 c3 :
  N.lor (N.shiftl (N.land c0 7) 18)
    (N.lor (N.shiftl (N.land c1 63) 12)
       (N.lor (N.shiftl (N.land c2 63) 6) (N.land c3 63)))
  = c0 mod 8 * 262144 + (c1 mod 64 * 4096 + (c2 mod 64 * 64 + c3 mod 64)).
Proof.
  change 7 with (2 ^ 3 - 1). change 63 with (2 ^ 6 - 1).
  rewrite !land_low.
  rewrite (lor_shiftl _ (c3 mod 2 ^ 6)) by (apply N.mod_lt; discriminate).
  rewrite (lor_shiftl (c1 mod 2 ^ 6));
    [|change (2 ^ 6) with 64; change (2 ^ 12) with 4096; nlia].
  rewrite lor_shiftl; [reflexivity|].
  change (2 ^ 6) with 64; change (2 ^ 12) with 4096; change (2 ^ 18) with 262144.
  nlia.
Qed.

End Bits.

(** ** The UTF-8 codec: the decoder accepts exactly what the encoder writes *)

Lemma byte_of_to_N b : byte_of_N (Byte.to_N b) = b.
Proof. unfold byte_of_N. rewrite Byte.of_to_N. reflexivity. Qed.

Lemma to_of_N n : n < 256 -> Byte.to_N (byte_of_N n) = n.
Proof.
  intros H. unfold byte_of_N. destruct (Byte.of_N n) eqn:E.
  - apply Byte.to_of_N. exact E.
  - apply Byte.of_N_None_iff in E. lia.
Qed.

Ltac pow2 :=
  change (2 ^ 3) with 8 in *; change (2 ^ 4) with 16 in *;
  change (2 ^ 5) with 32 in *; change (2 ^ 6) with 64 in *;
  change (2 ^ 12) with 4096 in *; change (2 ^ 18) with 262144 in *.

(** Resolve the boolean range tests in the goal from the hypotheses. *)
Ltac tests :=
  repeat match goal with
  | |- context [?a <? ?b] =>
      destruct (N.ltb_spec a b); [try (exfalso; nlia) | try (exfalso; nlia)]
  | |- context [?a <=? ?b] =>
      destruct (N.leb_spec a b); [try (exfalso; nlia) | try (exfalso; nlia)]
  end.

Lemma enc2 c : 128 <= c < 2048 ->
  utf8_encode_char c
  = Some [byte_of_N (192 + c / 64); byte_of_N (128 + c mod 64)].
Proof.
  intros H. unfold utf8_encode_char. tests.
  rewrite N.shiftr_div_pow2. change 63 with (2 ^ 6 - 1). rewrite land_low.
  rewrite (lor_lead 192 _ 6), (lor_lead 128 _ 6); pow2;
    try reflexivity; nlia.
Qed.

Lemma enc3 c : 2048 <= c < 65536 -> is_surrogate c = false ->
  utf8_encode_char c
  = Some [byte_of_N (224 + c / 4096); byte_of_N (128 + c / 64 mod 64);
          byte_of_N (128 + c mod 64)].
Proof.
  intros H S. unfold utf8_encode_char. rewrite S. tests.
  rewrite !N.shiftr_div_pow2. change 63 with (2 ^ 6 - 1). rewrite !land_low.
  rewrite (lor_lead 224 _ 4), !(lor_lead 128 _ 6); pow2;
    try reflexivity; nlia.
Qed.

Lemma enc4 c : 65536 <= c < 1114112 ->
  utf8_encode_char c
  = Some [byte_of_N (240 + c / 262144); byte_of_N (128 + c / 4096 mod 64);
          byte_of_N (128 + c / 64 mod 64); byte_of_N (128 + c mod 64)].
Proof.
  intros H. unfold utf8_encode_char. tests.
  rewrite !N.shiftr_div_pow2. change 63 with (2 ^ 6 - 1). rewrite !land_low.
  rewrite (lor_lead 240 _ 3), !(lor_lead 128 _ 6); pow2;
    try reflexivity; nlia.
Qed.

Lemma is_cont_iff c : is_cont c = true <-> 128 <= c < 192.
Proof.
  unfold is_cont. rewrite andb_true_iff, N.leb_le, N.ltb_lt. reflexivity.
Qed.

Lemma Some_inj {A} (a b : A) : Some a = Some b -> a = b.
Proof. congruence. Qed.

(** Decoding what the encoder wrote for one character gives it back. *)
Lemma utf8_decode_encode_char c bs rest :
  utf8_encode_char c = Some bs ->
  utf8_decode (bs ++ rest) = option_map (cons c) (utf8_decode rest).
Proof.
  intros E.
  destruct (N.lt_ge_cases c 128) as [H1|H1].
  { unfold utf8_encode_char in E. revert E. tests. intros E.
    apply Some_inj in E; subst bs. cbn [app utf8_decode].
    rewrite to_of_N by lia. tests. reflexivity. }
  destruct (N.lt_ge_cases c 2048) as [H2|H2].
  { rewrite enc2 in E by lia. apply Some_inj in E; subst bs. cbn [app utf8_decode].
    rewrite !to_of_N by nlia.
    assert (C1 : is_cont (128 + c mod 64) = true) by (apply is_cont_iff; nlia).
    rewrite C1, cp2_eq. tests.
    do 2 f_equal. nlia. }
  destruct (N.lt_ge_cases c 65536) as [H3|H3].
  { destruct (is_surrogate c) eqn:S.
    { unfold utf8_encode_char in E. rewrite S in E. revert E. tests.
      discriminate. }
    rewrite enc3 in E by (try exact S; lia). apply Some_inj in E; subst bs.
    cbn [app utf8_decode]. rewrite !to_of_N by nlia.
    assert (C1 : is_cont (128 + c / 64 mod 64) = true)
      by (apply is_cont_iff; nlia).
    assert (C2 : is_cont (128 + c mod 64) = true) by (apply is_cont_iff; nlia).
    rewrite C1, C2, cp3_eq.
    assert (Ec : (224 + c / 4096) mod 16 * 4096
                 + ((128 + c / 64 mod 64) mod 64 * 64 + (128 + c mod 64) mod 64)
                 = c) by nlia.
    rewrite Ec, S. tests. reflexivity. }
  destruct (N.lt_ge_cases c 1114112) as [H4|H4].
  { rewrite enc4 in E by lia. apply Some_inj in E; subst bs.
    cbn [app utf8_decode]. rewrite !to_of_N by nlia.
    assert (C1 : is_cont (128 + c / 4096 mod 64) = true)
      by (apply is_cont_iff; nlia).
    assert (C2 : is_cont (128 + c / 64 mod 64) = true)
      by (apply is_cont_iff; nlia).
    assert (C3 : is_cont (128 + c mod 64) = true) by (apply is_cont_iff; nlia).
    rewrite C1, C2, C3, cp4_eq.
    assert (Ec : (240 + c / 262144) mod 8 * 262144
                 + ((128 + c / 4096 mod 64) mod 64 * 4096
                    + ((128 + c / 64 mod 64) mod 64 * 64
                       + (128 + c mod 64) mod 64))
                 = c) by nlia.
    rewrite Ec. tests. reflexivity. }
  unfold utf8_encode_char in E. revert E. tests. discriminate.
Qed.

Lemma utf8_encode_decode s : forall bs,
  utf8_encode s = Some bs -> utf8_decode bs = Some s.
Proof.
  induction s as [|c s IH]; intros bs E; cbn [utf8_encode] in E.
  - injection E as <-. reflexivity.
  - destruct (utf8_encode_char c) as [b|] eqn:Ec; [|discriminate].
    destruct (utf8_encode s) as [bs'|] eqn:Es; [|discriminate].
    injection E as <-.
    rewrite (utf8_decode_encode_char c b bs' Ec), (IH bs' eq_refl).
    reflexivity.
Qed.

Lemma byte_of_N_eq n b : n = Byte.to_N b -> byte_of_N n = b.
Proof. intros ->. apply byte_of_to_N. Qed.

Lemma enc_of_dec2 b0 b1 :
  194 <= Byte.to_N b0 < 224 -> is_cont (Byte.to_N b1) = true ->
  utf8_encode_char
    (N.lor (N.shiftl (N.land (Byte.to_N b0) 31) 6) (N.land (Byte.to_N b1) 63))
  = Some [b0; b1].
Proof.
  intros H0 H1. apply is_cont_iff in H1. rewrite cp2_eq.
  rewrite enc2 by nlia.
  do 2 f_equal; [|f_equal]; apply byte_of_N_eq; nlia.
Qed.

Lemma enc_of_dec3 b0 b1 b2 :
  let cp := N.lor (N.shiftl (N.land (Byte.to_N b0) 15) 12)
              (N.lor (N.shiftl (N.land (Byte.to_N b1) 63) 6)
                 (N.land (Byte.to_N b2) 63)) in
  224 <= Byte.to_N b0 < 240 ->
  is_cont (Byte.to_N b1) = true -> is_cont (Byte.to_N b2) = true ->
  2048 <= cp -> is_surrogate cp = false ->
  utf8_encode_char cp = Some [b0; b1; b2].
Proof.
  cbv zeta. rewrite cp3_eq. intros H0 H1 H2 Hlo Hs.
  apply is_cont_iff in H1. apply is_cont_iff in H2.
  rewrite enc3 by (try exact Hs; nlia).
  do 2 f_equal; [|f_equal; [|f_equal]]; apply byte_of_N_eq; nlia.
Qed.

Lemma enc_of_dec4 b0 b1 b2 b3 :
  let cp := N.lor (N.shiftl (N.land (Byte.to_N b0) 7) 18)
              (N.lor (N.shiftl (N.land (Byte.to_N b1) 63) 12)
                 (N.lor (N.shiftl (N.land (Byte.to_N b2) 63) 6)
                    (N.land (Byte.to_N b3) 63))) in
  240 <= Byte.to_N b0 < 245 ->
  is_cont (Byte.to_N b1) = true -> is_cont (Byte.to_N b2) = true ->
  is_cont (Byte.to_N b3) = true ->
  65536 <= cp < 1114112 ->
  utf8_encode_char cp = Some [b0; b1; b2; b3].
Proof.
  cbv zeta. rewrite cp4_eq. intros H0 H1 H2 H3 Hr.
  apply is_cont_iff in H1. apply is_cont_iff in H2. apply is_cont_iff in H3.
  rewrite enc4 by exact Hr.
  do 2 f_equal; [|f_equal; [|f_equal; [|f_equal]]]; apply byte_of_N_eq; nlia.
Qed.

Lemma utf8_encode_cons c s b bs :
  utf8_encode_char c = Some b -> utf8_encode s = Some bs ->
  utf8_encode (c :: s) = Some (b ++ bs).
Proof. intros Hc Hs. cbn [utf8_encode]. rewrite Hc, Hs. reflexivity. Qed.

Lemma utf8_decode_encode_le n : forall bs s,
  (List.length bs <= n)%nat -> utf8_decode bs = Some s -> utf8_encode s = Some bs.
Proof.
  induction n as [|n IH]; intros bs s Hn H.
  { destruct bs; [|simpl in Hn; lia]. injection H as <-. reflexivity. }
  destruct bs as [|b0 r0]; [injection H as <-; reflexivity|].
  cbn [utf8_decode] in H. simpl in Hn.
  destruct (N.ltb_spec (Byte.to_N b0) 128) as [A1|A1].
  { destruct (utf8_decode r0) as [s'|] eqn:D; [|discriminate].
    apply Some_inj in H. subst s.
    apply (utf8_encode_cons _ _ [b0]); [|apply IH; [lia|exact D]].
    unfold utf8_encode_char. destruct (N.ltb_spec (Byte.to_N b0) 128); [|lia].
    rewrite byte_of_to_N. reflexivity. }
  destruct (N.ltb_spec (Byte.to_N b0) 194) as [A2|A2]; [discriminate|].
  destruct (N.ltb_spec (Byte.to_N b0) 224) as [A3|A3].
  { destruct r0 as [|b1 r1]; [discriminate|].
    destruct (is_cont (Byte.to_N b1)) eqn:C1; [|discriminate].
    destruct (utf8_decode r1) as [s'|] eqn:D; [|discriminate].
    apply Some_inj in H. subst s. simpl in Hn.
    apply (utf8_encode_cons _ _ [b0; b1]); [|apply IH; [lia|exact D]].
    apply enc_of_dec2; [lia|exact C1]. }
  destruct (N.ltb_spec (Byte.to_N b0) 240) as [A4|A4].
  { destruct r0 as [|b1 [|b2 r2]]; try discriminate.
    destruct (is_cont (Byte.to_N b1)) eqn:C1; [|discriminate].
    destruct (is_cont (Byte.to_N b2)) eqn:C2; [|discriminate].
    cbn [andb] in H.
    match type of H with context [2048 <=? ?cp] =>
      destruct (N.leb_spec 2048 cp) as [L|L]; [|discriminate];
      destruct (is_surrogate cp) eqn:S; [discriminate|] end.
    cbn [andb negb] in H.
    destruct (utf8_decode r2) as [s'|] eqn:D; [|discriminate].
    apply Some_inj in H. subst s. simpl in Hn.
    apply (utf8_encode_cons _ _ [b0; b1; b2]); [|apply IH; [lia|exact D]].
    apply enc_of_dec3; try assumption. lia. }
  destruct (N.ltb_spec (Byte.to_N b0) 245) as [A5|A5]; [|discriminate].
  destruct r0 as [|b1 [|b2 [|b3 r3]]]; try discriminate.
  destruct (is_cont (Byte.to_N b1)) eqn:C1; [|discriminate].
  destruct (is_cont (Byte.to_N b2)) eqn:C2; [|discriminate].
  destruct (is_cont (Byte.to_N b3)) eqn:C3; [|discriminate].
  cbn [andb] in H.
  match type of H with context [65536 <=? ?cp] =>
    destruct (N.leb_spec 65536 cp) as [L|L]; [|discriminate];
    destruct (N.ltb_spec cp 1114112) as [U|U]; [|discriminate] end.
  cbn [andb] in H.
  destruct (utf8_decode r3) as [s'|] eqn:D; [|discriminate].
  apply Some_inj in H. subst s. simpl in Hn.
  apply (utf8_encode_cons _ _ [b0; b1; b2; b3]); [|apply IH; [lia|exact D]].
  apply enc_of_dec4; try assumption; lia.
Qed.

Theorem utf8_decode_iff bs s : utf8_decode bs = Some s <-> utf8_encode s = Some bs.
Proof.
  split.
  - apply (utf8_decode_encode_le (List.length bs)). lia.
  - apply utf8_encode_decode.
Qed.

(** ** json.dumps stays inside printable ASCII *)

Lemma printable_lit_check (l : str) :
  forallb (fun c => (32 <=? c) && (c <=? 126)) l = true -> Forall printable l.
Proof.
  rewrite forallb_forall, Forall_forall. intros H c Hc.
  specialize (H c Hc). apply andb_true_iff in H. unfold printable.
  rewrite N.leb_le, N.leb_le in H. exact H.
Qed.

Ltac split_app :=
  repeat match goal with
  | |- Forall _ (_ ++ _) => apply Forall_app; split
  end.

Ltac printable_lit :=
  lazymatch goal with
  | |- Forall _ (lit _) => apply printable_lit_check; vm_compute; reflexivity
  | |- Forall _ (_ :: _) => apply printable_lit_check; vm_compute; reflexivity
  end.

Lemma hexdigit_printable d : printable (json.hexdigit d).
Proof.
  unfold json.hexdigit.
  destruct (nth_in_or_default (N.to_nat d) (lit "0123456789abcdef") 48) as [H|H].
  - revert H. generalize (nth (N.to_nat d) (lit "0123456789abcdef") 48).
    apply Forall_forall. printable_lit.
  - rewrite H. unfold printable. lia.
Qed.

Lemma hex_digits_printable fuel : forall n acc,
  Forall printable acc -> Forall printable (json.hex_digits fuel n acc).
Proof.
  induction fuel as [|fuel IH]; intros n acc Hacc; cbn [json.hex_digits].
  - exact Hacc.
  - assert (H : Forall printable (json.hexdigit (n mod 16) :: acc))
      by (constructor; [apply hexdigit_printable | exact Hacc]).
    destruct (n / 16 =? 0); [exact H | apply IH; exact H].
Qed.

Lemma format_04x_printable n : Forall printable (json.format_04x n).
Proof.
  unfold json.format_04x. apply Forall_app. split.
  - apply Forall_forall. intros c Hc. apply repeat_spec in Hc. subst c.
    unfold printable. lia.
  - apply hex_digits_printable. constructor.
Qed.

Lemma ESCAPE_DCT_printable c e :
  json.ESCAPE_DCT c = Some e -> Forall printable e.
Proof.
  unfold json.ESCAPE_DCT.
  repeat match goal with
  | |- (if ?b then _ else _) = _ -> _ =>
      destruct b; [intros H; apply Some_inj in H; subst e; try printable_lit|]
  end; [|discriminate].
  split_app; [printable_lit | apply format_04x_printable].
Qed.

Lemma replace_printable c : Forall printable (json.replace c).
Proof.
  unfold json.replace.
  destruct (json.ESCAPE_DCT c) as [e|] eqn:E;
    [exact (ESCAPE_DCT_printable c e E)|].
  cbv zeta. destruct (c <? 65536);
    split_app;
    try apply format_04x_printable; printable_lit.
Qed.

Lemma encode_basestring_ascii_printable s :
  Forall printable (json.encode_basestring_ascii s).
Proof.
  unfold json.encode_basestring_ascii.
  split_app; try printable_lit.
  induction s as [|c s IH]; cbn [flat_map]; [constructor|].
  apply Forall_app. split; [|exact IH].
  destruct (json.ESCAPE_ASCII c) eqn:E; [apply replace_printable|].
  constructor; [|constructor].
  unfold json.ESCAPE_ASCII in E.
  apply orb_false_iff in E. destruct E as [_ E].
  apply negb_false_iff, andb_true_iff in E.
  unfold printable. rewrite !N.leb_le in E. exact E.
Qed.

Lemma iterencode_items_printable items : forall first,
  Forall printable (json.iterencode_items first items).
Proof.
  induction items as [|[key value] rest IH]; intros first;
    cbn [json.iterencode_items]; [constructor|].
  split_app;
    try apply encode_basestring_ascii_printable; try apply IH.
  - destruct first; [constructor | printable_lit].
  - printable_lit.
Qed.

(** With [ensure_ascii] left at its default, [json.dumps] writes nothing
    outside the printable ASCII range, whatever the strings hold. *)
Lemma dumps_printable obj : Forall printable (json.dumps obj).
Proof.
  destruct obj as [|kv rest]; cbn [json.dumps]; [printable_lit|].
  split_app; try printable_lit.
  apply iterencode_items_printable.
Qed.

Lemma latin1_encode_printable s :
  Forall printable s ->
  exists b, latin1_encode s = Some b /\ Forall (fun x => Byte.to_N x <= 127) b.
Proof.
  induction 1 as [|c s Hc Hs IH]; cbn [latin1_encode].
  - exists []. split; [reflexivity | constructor].
  - destruct IH as (b & -> & Hb). unfold printable in Hc.
    destruct (N.ltb_spec c 256); [|lia].
    exists (byte_of_N c :: b). split; [reflexivity|].
    constructor; [|exact Hb].
    unfold byte_of_N. destruct (Byte.of_N c) eqn:E.
    + apply Byte.to_of_N in E. lia.
    + apply Byte.of_N_None_iff in E. lia.
Qed.

(** ** The request the script builds *)

Lemma payload_escaped : payload = escaped_json_text.
Proof. vm_compute. reflexivity. Qed.

Lemma script_request :
  encode_request conn (lit "POST") (lit "/generate") payload headers
  = Ok generate_request.
Proof. vm_compute. reflexivity. Qed.

Lemma and_then_Ok {A B} (r : result A) (k : A -> result B) b :
  and_then r k = Ok b -> exists a, r = Ok a /\ k a = Ok b.
Proof. destruct r as [a|e]; [eauto | discriminate]. Qed.

Lemma Ok_inj {A} (a b : A) : Ok a = Ok b -> a = b.
Proof. congruence. Qed.

Lemma encoded_Ok o b : encoded o = Ok b -> o = Some b.
Proof.
  destruct o as [x|]; cbn [encoded]; intros E; [|discriminate E].
  apply Ok_inj in E. subst x. reflexivity.
Qed.

(** Whatever the dict holds, the body [request] writes for [json.dumps] of
    it has no octet above 0x7F. *)
Lemma dumps_body_ascii c method url obj hs r :
  encode_request c method url (json.dumps obj) hs = Ok r ->
  Forall (fun x => Byte.to_N x <= 127) (r_body r).
Proof.
  unfold encode_request. intros E.
  apply and_then_Ok in E. destruct E as (buffer & _ & E).
  apply and_then_Ok in E. destruct E as (b & Eb & E).
  apply encoded_Ok in Eb. apply Ok_inj in E. subst r. cbn [r_body].
  destruct (latin1_encode_printable (json.dumps obj) (dumps_printable obj))
    as (b' & Eb' & Hb).
  rewrite Eb in Eb'. apply Some_inj in Eb'. subst b'. exact Hb.
Qed.

(** ** A run, case by case *)

Section Run.

Variable net : network.
Variable out : TextIO.

Let sent := transmit net conn (r_octets generate_request).
Let answer := respond net conn (r_octets generate_request).

(** The whole behaviour of a run, by what the network and the standard
    output do. *)
Lemma run_eq :
  run net out =
  match sent with
  | Raises e => (Raises e, requested)
  | Blocks => (Blocks, requested)
  | Returns _ =>
      match answer with
      | Raises e => (Raises e, requested)
      | Blocks => (Blocks, requested)
      | Returns res =>
          match content res with
          | Raises e => (Raises e, requested)
          | Blocks => (Blocks, requested)
          | Returns data => shown out data
          end
      end
  end.
Proof.
  subst sent answer.
  unfold run, script, bind, HTTPConnection_request.
  rewrite script_request. cbn [issued stdout start app].
  destruct (transmit net conn (r_octets generate_request)) as [[]|e|];
    try reflexivity.
  unfold HTTPConnection_getresponse. cbn [issued map last].
  destruct (respond net conn (r_octets generate_request)) as [res|e|];
    try reflexivity.
  unfold HTTPResponse_read, call.
  destruct (content res) as [data|e|]; try reflexivity.
  unfold bytes_decode_utf8, shown.
  destruct (utf8_decode data) as [text|]; [|reflexivity].
  unfold ret, print. cbn [issued stdout app].
  destruct (write out text) as [[]|e|]; reflexivity.
Qed.

Lemma shown_issued data :
  issued (snd (shown out data)) = [generate_request].
Proof.
  unfold shown. destruct (utf8_decode data) as [text|]; [|reflexivity].
  destruct (write out text) as [[]|e|]; reflexivity.
Qed.

Lemma run_issued : issued (snd (run net out)) = [generate_request].
Proof.
  rewrite run_eq.
  destruct sent as [[]|e|]; try reflexivity.
  destruct answer as [res|e|]; try reflexivity.
  destruct (content res) as [data|e|]; try reflexivity.
  apply shown_issued.
Qed.

Lemma run_request_raises e :
  sent = Raises e -> run net out = (Raises e, requested).
Proof. intros H. rewrite run_eq, H. reflexivity. Qed.

Lemma run_getresponse_raises e :
  sent = Returns tt -> answer = Raises e -> run net out = (Raises e, requested).
Proof. intros H1 H2. rewrite run_eq, H1, H2. reflexivity. Qed.

Lemma run_read res (o : outcome bytes) :
  sent = Returns tt -> answer = Returns res -> content res = o ->
  run net out =
  match o with
  | Raises e => (Raises e, requested)
  | Blocks => (Blocks, requested)
  | Returns data => shown out data
  end.
Proof. intros H1 H2 H3. rewrite run_eq, H1, H2, H3. reflexivity. Qed.

Lemma shown_printed data text :
  utf8_encode text = Some data -> write out text = Returns tt ->
  shown out data
  = (Returns tt, {| issued := [generate_request]; stdout := text ++ [10] |}).
Proof.
  intros V W. unfold shown.
  rewrite (utf8_encode_decode text data V), W. reflexivity.
Qed.

End Run.

(** A peer that takes the request and never answers: the script sets no
    timeout, so the run does not end. *)
Remark silent_peer_blocks out : run silent out = (Blocks, requested).
Proof. rewrite run_eq. reflexivity. Qed.

(** * The claims *)

(** C1. For every run, the body of the request the script sends, parsed as
    JSON, is exactly the object with the field question mapped to the
    nine-character prompt and the field language mapped to python, and no
    other field. *)
Theorem request_body_parses_to_payload (net : network) (out : TextIO) :
  map (fun r => loads_bytes (r_body r)) (issued (snd (run net out)))
  = [ Some [ (lit "question", question); (lit "language", lit "python") ] ].
Proof. rewrite run_issued. vm_compute. reflexivity. Qed.

(** C2, as stated, fails: the body is not the UTF-8 encoding of the JSON
    text that holds the prompt's characters themselves.  At index 14 the
    body has a backslash where that encoding has 0xE7, the first octet of
    U+751F. *)
Lemma request_body_is_not_literal_utf8 :
  exists r,
    issued (snd (run (answering ok_response) utf8_stdout)) = [r]
    /\ nth 14 (r_body r) x00 = x5c
    /\ option_map (fun b => nth 14 b x00) (utf8_encode literal_json_text)
       = Some xe7
    /\ Some (r_body r) <> utf8_encode literal_json_text.
Proof.
  exists generate_request. rewrite run_issued.
  repeat split; try (vm_compute; reflexivity).
  vm_compute. discriminate.
Qed.

(** C2, amended.  For every run, the body on the wire is, octet for octet,
    the JSON text in which each of the nine characters of the prompt is a
    six-character backslash-u escape; that text is pure ASCII, so these
    octets are also its UTF-8 encoding. *)
Theorem request_body_is_escaped_json (net : network) (out : TextIO) :
  map r_body (issued (snd (run net out))) = [ascii_bytes escaped_json_text]
  /\ utf8_encode escaped_json_text = Some (ascii_bytes escaped_json_text).
Proof.
  rewrite run_issued. split; vm_compute; reflexivity.
Qed.

(** C3, as stated, fails: the body may be valid UTF-8 and still not be
    printed.  The response that echoes the prompt, on a standard output
    whose encoding is ASCII, makes print raise UnicodeEncodeError: the run
    ends with it and standard output stays empty. *)
Lemma valid_body_refused_by_ascii_stdout :
  content echo_response = Returns (list_byte_of_string "生成一个贪吃蛇项目")
  /\ utf8_encode question = Some (list_byte_of_string "生成一个贪吃蛇项目")
  /\ run (answering echo_response) ascii_stdout
     = (Raises UnicodeEncodeError,
        {| issued := [generate_request]; stdout := [] |}).
Proof.
  split; [reflexivity|]. split; [reflexivity|].
  rewrite run_eq. reflexivity.
Qed.

(** C3, amended.  When the request goes through, the response's body,
    read in full, is valid UTF-8 (the encoding of a text), and standard
    output accepts that text, the run ends normally and its whole standard
    output is that text followed by one newline. *)
Theorem response_body_is_printed (net : network) (out : TextIO) res data text :
  transmit net conn (r_octets generate_request) = Returns tt ->
  respond net conn (r_octets generate_request) = Returns res ->
  content res = Returns data ->
  utf8_encode text = Some data ->
  write out text = Returns tt ->
  run net out = (Returns tt,
                 {| issued := [generate_request]; stdout := text ++ [10] |}).
Proof.
  intros Hsent Hres Hdata Hvalid Hout.
  rewrite (run_read net out res (Returns data) Hsent Hres Hdata).
  exact (shown_printed out data text Hvalid Hout).
Qed.

Lemma response_body_is_printed_witness :
  run (answering ok_response) ascii_stdout
  = (Returns tt,
     {| issued := [generate_request]; stdout := status_ok_text ++ [10] |})
  /\ run (answering echo_response) utf8_stdout
     = (Returns tt,
        {| issued := [generate_request]; stdout := question ++ [10] |}).
Proof.
  split.
  - apply (response_body_is_printed (answering ok_response) ascii_stdout
             ok_response (ascii_bytes status_ok_text) status_ok_text);
      reflexivity.
  - apply (response_body_is_printed (answering echo_response) utf8_stdout
             echo_response (list_byte_of_string "生成一个贪吃蛇项目") question);
      reflexivity.
Defined.

(** C4, as stated, fails: a 404 response is printed like any other and the
    run ends normally, with no exception at all. *)
Lemma not_found_is_printed :
  status not_found_response <> 200
  /\ run (answering not_found_response) utf8_stdout
     = (Returns tt,
        {| issued := [generate_request]; stdout := lit "Not Found" ++ [10] |})
  /\ forall e, fst (run (answering not_found_response) utf8_stdout) <> Raises e.
Proof.
  assert (R : run (answering not_found_response) utf8_stdout
              = (Returns tt,
                 {| issued := [generate_request];
                    stdout := lit "Not Found" ++ [10] |}))
    by (rewrite run_eq; reflexivity).
  split; [cbn; lia|]. split; [exact R|].
  intros e. rewrite R. discriminate.
Qed.

(** C4, amended.  The script never looks at the status.  When the request
    went through and the response has a status other than 200, the run
    ends exactly as it does on the same standard output for a response
    with status 200 and the same body; so when that body, read in full, is
    valid UTF-8 and standard output accepts its text, the run prints the
    text followed by a newline and ends normally. *)
Theorem non_200_response_is_printed (net : network) (out : TextIO) res :
  transmit net conn (r_octets generate_request) = Returns tt ->
  respond net conn (r_octets generate_request) = Returns res ->
  status res <> 200 ->
  run net out = run (answering {| status := 200; content := content res |}) out
  /\ forall data text,
       content res = Returns data ->
       utf8_encode text = Some data ->
       write out text = Returns tt ->
       run net out
       = (Returns tt,
          {| issued := [generate_request]; stdout := text ++ [10] |}).
Proof.
  intros Hsent Hres _. split.
  - rewrite (run_read net out res (content res) Hsent Hres eq_refl).
    rewrite (run_read (answering {| status := 200; content := content res |})
               out {| status := 200; content := content res |} (content res)
               eq_refl eq_refl eq_refl).
    reflexivity.
  - intros data text Hdata Hvalid Hout.
    rewrite (run_read net out res (Returns data) Hsent Hres Hdata).
    exact (shown_printed out data text Hvalid Hout).
Qed.

Lemma non_200_response_is_printed_witness :
  run (answering not_found_response) utf8_stdout
  = run (answering
           {| status := 200; content := content not_found_response |})
      utf8_stdout
  /\ forall data text,
       content not_found_response = Returns data ->
       utf8_encode text = Some data ->
       write utf8_stdout text = Returns tt ->
       run (answering not_found_response) utf8_stdout
       = (Returns tt,
          {| issued := [generate_request]; stdout := text ++ [10] |}).
Proof.
  apply (non_200_response_is_printed (answering not_found_response)
           utf8_stdout not_found_response); try reflexivity.
  cbn. lia.
Defined.

(** C5. Any two runs issue the same requests, down to the octets written
    to the socket: method, path, headers and body do not depend on the
    network, the server, the standard output, or anything else that varies
    between runs. *)
Theorem requests_are_identical (net1 net2 : network) (out1 out2 : TextIO) :
  issued (snd (run net1 out1)) = issued (snd (run net2 out2))
  /\ map r_octets (issued (snd (run net1 out1)))
     = map r_octets (issued (snd (run net2 out2))).
Proof. rewrite !run_issued. split; reflexivity. Qed.

(** C6. Every run issues exactly one request; its method is POST, its
    path /generate, its target host 127.0.0.1 and port 8000, and the
    octets written start with the request line POST /generate HTTP/1.1. *)
Theorem one_post_to_generate (net : network) (out : TextIO) :
  exists r,
    issued (snd (run net out)) = [r]
    /\ r_method r = lit "POST"
    /\ r_url r = lit "/generate"
    /\ host (r_target r) = lit "127.0.0.1"
    /\ port (r_target r) = 8000
    /\ firstn 25 (r_octets r)
       = ascii_bytes (lit "POST /generate HTTP/1.1") ++ CRLF.
Proof.
  exists generate_request. rewrite run_issued.
  repeat split; vm_compute; reflexivity.
Qed.

(** C7. The request carries exactly two headers set by the caller,
    User-Agent: Apifox/1.0.0 (https://apifox.com) and
    Content-Type: application/json.  On the wire they follow the request
    line and the three headers the library adds itself. *)
Theorem two_caller_headers (net : network) (out : TextIO) :
  map r_headers (issued (snd (run net out)))
  = [ [ (lit "User-Agent", lit "Apifox/1.0.0 (https://apifox.com)");
        (lit "Content-Type", lit "application/json") ] ]
  /\ header_lines conn (lit "POST") (lit "/generate") payload headers
     = Ok (map ascii_bytes
             [ lit "POST /generate HTTP/1.1";
               lit "Host: 127.0.0.1:8000";
               lit "Accept-Encoding: identity";
               lit "Content-Length: 92";
               lit "User-Agent: Apifox/1.0.0 (https://apifox.com)";
               lit "Content-Type: application/json" ]).
Proof. rewrite run_issued. split; vm_compute; reflexivity. Qed.

(** C8. When the transport fails before a complete response is in
    (connection refused, a timeout reported by the transport, the server
    closing without a response or in the middle of the body), the run ends
    with that exception unhandled: it does not hang, does not end
    normally, has printed nothing, and has issued its one request and no
    second one. *)
Theorem transport_failure_is_fatal (net : network) (out : TextIO) (e : exn) :
  transport_fails net e ->
  run net out = (Raises e, {| issued := [generate_request]; stdout := [] |}).
Proof.
  intros [H | H1 H2 | res H1 H2 H3].
  - exact (run_request_raises net out e H).
  - exact (run_getresponse_raises net out e H1 H2).
  - rewrite (run_read net out res (Raises e) H1 H2 H3). reflexivity.
Qed.

Lemma transport_failure_is_fatal_witness :
  run refusing utf8_stdout = (Raises ConnectionRefusedError, requested)
  /\ run timing_out utf8_stdout = (Raises TimeoutError, requested)
  /\ run hanging_up utf8_stdout = (Raises RemoteDisconnected, requested)
  /\ run truncating utf8_stdout = (Raises IncompleteRead, requested).
Proof.
  split; [|split; [|split]]; apply transport_failure_is_fatal.
  - apply fails_in_request. reflexivity.
  - apply fails_in_request. reflexivity.
  - apply fails_in_getresponse; reflexivity.
  - apply (fails_in_read truncating IncompleteRead
             {| status := 200; content := Raises IncompleteRead |});
      reflexivity.
Defined.

(** C9. The body on the wire is ASCII only: no octet exceeds 0x7F, because
    json.dumps, with ensure_ascii at its default, writes each of the nine
    characters of the question as a backslash-u escape of four hex
    digits. *)
Theorem request_body_is_ascii (net : network) (out : TextIO) :
  Forall (fun r => Forall (fun x => Byte.to_N x <= 127) (r_body r))
    (issued (snd (run net out)))
  /\ json.encode_basestring_ascii question
     = quote (lit "\u751f\u6210\u4e00\u4e2a\u8d2a\u5403\u86c7\u9879\u76ee").
Proof.
  rewrite run_issued. split; [|vm_compute; reflexivity].
  constructor; [|constructor].
  exact (dumps_body_ascii _ _ _ _ _ _ script_request).
Qed.

(** C10. The response body is decoded strictly.  When the request went
    through and the body, read in full, is not valid UTF-8 (it is the
    encoding of no text), the run ends with an unhandled UnicodeDecodeError
    and nothing at all on standard output. *)
Theorem invalid_utf8_is_fatal (net : network) (out : TextIO) res data :
  transmit net conn (r_octets generate_request) = Returns tt ->
  respond net conn (r_octets generate_request) = Returns res ->
  content res = Returns data ->
  (forall text, utf8_encode text <> Some data) ->
  run net out = (Raises UnicodeDecodeError,
                 {| issued := [generate_request]; stdout := [] |}).
Proof.
  intros Hsent Hres Hdata Hinvalid.
  rewrite (run_read net out res (Returns data) Hsent Hres Hdata).
  unfold shown.
  destruct (utf8_decode data) as [text|] eqn:D; [|reflexivity].
  apply utf8_decode_iff in D. destruct (Hinvalid text D).
Qed.

Lemma invalid_utf8_is_fatal_witness :
  run (answering invalid_response) utf8_stdout
  = (Raises UnicodeDecodeError, requested)
  /\ run (answering overlong_response) utf8_stdout
     = (Raises UnicodeDecodeError, requested).
Proof.
  split.
  - apply (invalid_utf8_is_fatal (answering invalid_response) utf8_stdout
             invalid_response [xff]); try reflexivity.
    intros text E. apply utf8_encode_decode in E. discriminate E.
  - apply (invalid_utf8_is_fatal (answering overlong_response) utf8_stdout
             overlong_response [xc0; xaf]); try reflexivity.
    intros text E. apply utf8_encode_decode in E. discriminate E.
Defined.

(** * Further properties *)

(** ** The decoder's output and the encoder's domain *)

Lemma utf8_encode_char_scalar c :
  (exists b, utf8_encode_char c = Some b) <-> scalar c.
Proof.
  unfold utf8_encode_char, is_surrogate, scalar.
  destruct (N.ltb_spec c 128); [split; [lia | eauto]|].
  destruct (N.ltb_spec c 2048); [split; [lia | eauto]|].
  destruct (N.ltb_spec c 65536).
  { destruct (N.leb_spec 55296 c); destruct (N.ltb_spec c 57344); cbn [andb];
      (split; [intros [b Hb]; (discriminate Hb || lia) | intros; (eauto || lia)]). }
  destruct (N.ltb_spec c 1114112); [split; [lia | eauto]|].
  split; [intros [b Hb]; discriminate Hb | lia].
Qed.

Lemma utf8_encode_scalar s : forall bs,
  utf8_encode s = Some bs -> Forall scalar s.
Proof.
  induction s as [|c s IH]; intros bs E; [constructor|].
  cbn [utf8_encode] in E.
  destruct (utf8_encode_char c) as [b|] eqn:Ec; [|discriminate].
  destruct (utf8_encode s) as [bs'|]; [|discriminate].
  constructor; [apply utf8_encode_char_scalar; eauto | exact (IH bs' eq_refl)].
Qed.

Lemma utf8_encode_total s :
  Forall scalar s -> exists bs, utf8_encode s = Some bs.
Proof.
  induction 1 as [|c s Hc Hs [bs IH]]; [exists []; reflexivity|].
  apply utf8_encode_char_scalar in Hc. destruct Hc as [b Hb].
  exists (b ++ bs). apply utf8_encode_cons; assumption.
Qed.

Lemma utf8_encode_app s : forall t bs bt,
  utf8_encode s = Some bs -> utf8_encode t = Some bt ->
  utf8_encode (s ++ t) = Some (bs ++ bt).
Proof.
  induction s as [|c s IH]; intros t bs bt Es Et.
  - apply Some_inj in Es. subst bs. exact Et.
  - cbn [utf8_encode] in Es.
    destruct (utf8_encode_char c) as [b|] eqn:Ec; [|discriminate].
    destruct (utf8_encode s) as [bs'|] eqn:E'; [|discriminate].
    apply Some_inj in Es. subst bs.
    cbn [app]. rewrite <- app_assoc.
    apply utf8_encode_cons; [exact Ec | exact (IH t bs' bt eq_refl Et)].
Qed.


(** X1. Whatever [data.decode("utf-8")] returns holds Unicode scalar values
    only (no surrogate, nothing above U+10FFFF), and encoding it again as
    UTF-8 gives back the very octets that were decoded. *)
Theorem decoded_text_is_scalar (bs : bytes) (s : str) :
  utf8_decode bs = Some s -> Forall scalar s /\ utf8_encode s = Some bs.
Proof.
  intros D. apply utf8_decode_iff in D. split; [|exact D].
  exact (utf8_encode_scalar s bs D).
Qed.

(** X2. Every text of Unicode scalar values has a UTF-8 encoding, and the
    strict decoder the script applies to the response body gives that text
    back from it. *)
Lemma decoded_text_is_scalar_witness :
  Forall scalar question
  /\ utf8_encode question = Some (list_byte_of_string "生成一个贪吃蛇项目").
Proof.
  apply (decoded_text_is_scalar (list_byte_of_string "生成一个贪吃蛇项目") question).
  reflexivity.
Defined.

Theorem scalar_text_round_trips (s : str) :
  Forall scalar s ->
  exists bs, utf8_encode s = Some bs /\ utf8_decode bs = Some s.
Proof.
  intros H. destruct (utf8_encode_total s H) as [bs E].
  exists bs. split; [exact E | exact (utf8_encode_decode s bs E)].
Qed.

(** X3. When the request goes through, the body, read in full, is valid
    UTF-8 and standard output accepts its text, the run ends normally and
    what it printed, encoded as UTF-8, is the body octet for octet
    followed by the single octet 0x0A: the body passes through
    verbatim. *)
Theorem body_passes_through_verbatim (net : network) (out : TextIO)
    res data text :
  transmit net conn (r_octets generate_request) = Returns tt ->
  respond net conn (r_octets generate_request) = Returns res ->
  content res = Returns data ->
  utf8_encode text = Some data ->
  write out text = Returns tt ->
  fst (run net out) = Returns tt
  /\ utf8_encode (stdout (snd (run net out))) = Some (data ++ [x0a]).
Proof.
  intros T R C V W.
  rewrite (run_read net out res (Returns data) T R C).
  rewrite (shown_printed out data text V W). cbn [fst snd stdout].
  split; [reflexivity|].
  apply utf8_encode_app; [exact V | reflexivity].
Qed.

Lemma scalar_text_round_trips_witness :
  exists bs, utf8_encode [128512; 233; 36] = Some bs
             /\ utf8_decode bs = Some [128512; 233; 36].
Proof.
  apply (scalar_text_round_trips [128512; 233; 36]).
  repeat (constructor; [unfold scalar; lia|]). constructor.
Defined.

Lemma body_passes_through_verbatim_witness :
  fst (run (answering echo_response) utf8_stdout) = Returns tt
  /\ utf8_encode (stdout (snd (run (answering echo_response) utf8_stdout)))
     = Some (list_byte_of_string "生成一个贪吃蛇项目" ++ [x0a]).
Proof.
  apply (body_passes_through_verbatim (answering echo_response) utf8_stdout
           echo_response (list_byte_of_string "生成一个贪吃蛇项目") question);
    reflexivity.
Defined.

(** ** Runs, outcome by outcome *)

Lemma Returns_inj {A} (a b : A) : Returns a = Returns b -> a = b.
Proof. congruence. Qed.

(** X4. A run ends normally exactly when all five steps succeed: the
    request is written, a response comes back, its body is read in full,
    the body decodes as UTF-8, and standard output accepts the text.
    There is no other way to a normal exit. *)
Theorem run_succeeds_iff (net : network) (out : TextIO) :
  fst (run net out) = Returns tt
  <-> exists res data text,
        transmit net conn (r_octets generate_request) = Returns tt
        /\ respond net conn (r_octets generate_request) = Returns res
        /\ content res = Returns data
        /\ utf8_decode data = Some text
        /\ write out text = Returns tt.
Proof.
  rewrite run_eq.
  destruct (transmit net conn _) as [[]|e|].
  2,3: split; [discriminate | intros (? & ? & ? & H & _); discriminate H].
  destruct (respond net conn _) as [res|e|].
  2,3: split; [discriminate | intros (? & ? & ? & _ & H & _); discriminate H].
  destruct (content res) as [data|e|] eqn:C.
  2,3: split; [discriminate
              | intros (r & ? & ? & _ & H & H' & _);
                apply Returns_inj in H; subst r; rewrite C in H'; discriminate H'].
  unfold shown.
  destruct (utf8_decode data) as [text|] eqn:D.
  - destruct (write out text) as [[]|e|] eqn:W.
    + split; [intros _; exists res, data, text; auto | reflexivity].
    + split; [discriminate|].
      intros (r & d & t & _ & H & H' & H'' & H''').
      apply Returns_inj in H; subst r. rewrite C in H'.
      apply Returns_inj in H'; subst d. rewrite D in H''.
      apply Some_inj in H''; subst t. rewrite W in H'''. discriminate H'''.
    + split; [discriminate|].
      intros (r & d & t & _ & H & H' & H'' & H''').
      apply Returns_inj in H; subst r. rewrite C in H'.
      apply Returns_inj in H'; subst d. rewrite D in H''.
      apply Some_inj in H''; subst t. rewrite W in H'''. discriminate H'''.
  - split; [discriminate|].
    intros (r & d & t & _ & H & H' & H'' & _).
    apply Returns_inj in H; subst r. rewrite C in H'.
    apply Returns_inj in H'; subst d. rewrite D in H''. discriminate H''.
Qed.




(** X7. A run that ends with an exception got it from one of three
    places: a network call raised it (and it is that very exception), it
    is the UnicodeDecodeError of a body that is not UTF-8, or standard
    output raised it when handed the decoded text.  Building and encoding
    the request never raises. *)
Theorem fault_comes_from_the_environment (net : network) (out : TextIO)
    (e : exn) :
  fst (run net out) = Raises e ->
  transport_fails net e
  \/ (e = UnicodeDecodeError
      /\ exists res data,
           transmit net conn (r_octets generate_request) = Returns tt
           /\ respond net conn (r_octets generate_request) = Returns res
           /\ content res = Returns data
           /\ utf8_decode data = None)
  \/ (exists res data text,
        transmit net conn (r_octets generate_request) = Returns tt
        /\ respond net conn (r_octets generate_request) = Returns res
        /\ content res = Returns data
        /\ utf8_decode data = Some text
        /\ write out text = Raises e).
Proof.
  rewrite run_eq.
  destruct (transmit net conn _) as [[]|e'|] eqn:T; cbn [fst].
  2: { intros H. left. apply fails_in_request. rewrite T. congruence. }
  2: discriminate.
  destruct (respond net conn _) as [res|e'|] eqn:R; cbn [fst].
  2: { intros H. left. apply fails_in_getresponse; [exact T|].
       rewrite R. congruence. }
  2: discriminate.
  destruct (content res) as [data|e'|] eqn:C; cbn [fst].
  2: { intros H. left. apply (fails_in_read net e res T R).
       rewrite C. congruence. }
  2: discriminate.
  unfold shown.
  destruct (utf8_decode data) as [text|] eqn:D; cbn [fst].
  - destruct (write out text) as [[]|e'|] eqn:W; cbn [fst]; try discriminate.
    intros H. right. right. exists res, data, text.
    repeat split; try assumption. rewrite W. congruence.
  - intros H. right. left. split; [congruence|]. exists res, data. auto.
Qed.

Lemma fault_comes_from_the_environment_witness :
  transport_fails (answering echo_response) UnicodeEncodeError
  \/ (UnicodeEncodeError = UnicodeDecodeError
      /\ exists res data,
           transmit (answering echo_response) conn (r_octets generate_request)
           = Returns tt
           /\ respond (answering echo_response) conn (r_octets generate_request)
              = Returns res
           /\ content res = Returns data
           /\ utf8_decode data = None)
  \/ (exists res data text,
        transmit (answering echo_response) conn (r_octets generate_request)
        = Returns tt
        /\ respond (answering echo_response) conn (r_octets generate_request)
           = Returns res
        /\ content res = Returns data
        /\ utf8_decode data = Some text
        /\ write ascii_stdout text = Raises UnicodeEncodeError).
Proof.
  apply (fault_comes_from_the_environment (answering echo_response)
           ascii_stdout UnicodeEncodeError).
  reflexivity.
Defined.

(** X8. The status code is never read: two exchanges whose responses
    differ in status but agree on what reading the body gives end the run
    in exactly the same way, output included. *)
Theorem status_is_ignored (net1 net2 : network) (out : TextIO) res1 res2 :
  transmit net1 conn (r_octets generate_request) = Returns tt ->
  transmit net2 conn (r_octets generate_request) = Returns tt ->
  respond net1 conn (r_octets generate_request) = Returns res1 ->
  respond net2 conn (r_octets generate_request) = Returns res2 ->
  content res1 = content res2 ->
  run net1 out = run net2 out.
Proof.
  intros T1 T2 R1 R2 C.
  rewrite (run_read net1 out res1 (content res1) T1 R1 eq_refl).
  rewrite (run_read net2 out res2 (content res1) T2 R2 (eq_sym C)).
  reflexivity.
Qed.

Lemma status_is_ignored_witness :
  status ok_response <> status server_error_response
  /\ run (answering ok_response) utf8_stdout
     = run (answering server_error_response) utf8_stdout.
Proof.
  split; [cbn; lia|].
  apply (status_is_ignored (answering ok_response)
           (answering server_error_response) utf8_stdout
           ok_response server_error_response);
    reflexivity.
Defined.

(** ** json.dumps read back by json.loads *)

Lemma hexval_hexdigit d : d < 16 -> json.hexval (json.hexdigit d) = Some d.
Proof.
  intros H. rewrite <- (N2Nat.id d).
  assert (Hn : (N.to_nat d < 16)%nat) by lia.
  revert Hn. generalize (N.to_nat d). intros n Hn.
  do 16 (destruct n as [|n]; [reflexivity|]). lia.
Qed.

Lemma size_gt_of_pow2_le n k : 2 ^ k <= n -> k < N.size n.
Proof.
  intros H. pose proof (N.size_gt n) as G.
  apply (N.pow_lt_mono_r_iff 2); [lia|]. lia.
Qed.

Lemma hex_digits_fuel n :
  16 <= n -> exists m, N.to_nat (N.size n) = S (S (S (S m))).
Proof.
  intros H. apply (size_gt_of_pow2_le n 4) in H.
  exists (N.to_nat (N.size n) - 4)%nat. lia.
Qed.

Lemma format_04x_small n : n < 65536 ->
  json.format_04x n
  = [json.hexdigit (n / 4096); json.hexdigit (n / 256 mod 16);
     json.hexdigit (n / 16 mod 16); json.hexdigit (n mod 16)].
Proof.
  intros H. unfold json.format_04x.
  destruct (N.lt_ge_cases n 16) as [H1|H1].
  { cbn [json.hex_digits]. rewrite (N.div_small n 16) by exact H1.
    cbn [N.eqb List.length Nat.sub repeat app].
    rewrite (N.div_small n 4096), (N.div_small n 256) by lia.
    reflexivity. }
  destruct (hex_digits_fuel n H1) as [m ->].
  cbn [json.hex_digits].
  destruct (N.eqb_spec (n / 16) 0) as [E|_]; [nlia|].
  destruct (N.eqb_spec (n / 16 / 16) 0) as [E|E].
  { cbn [List.length Nat.sub repeat app].
    replace (n / 4096) with 0 by nlia. replace (n / 256 mod 16) with 0 by nlia.
    replace (n / 16 mod 16) with (n / 16) by nlia. reflexivity. }
  destruct (N.eqb_spec (n / 16 / 16 / 16) 0) as [E'|E'].
  { cbn [List.length Nat.sub repeat app].
    replace (n / 4096) with 0 by nlia.
    replace (n / 256 mod 16) with (n / 16 / 16) by nlia.
    replace (n / 16 / 16 mod 16) with (n / 16 / 16) by nlia. reflexivity. }
  destruct (N.eqb_spec (n / 16 / 16 / 16 / 16) 0) as [E''|E'']; [|nlia].
  cbn [List.length Nat.sub repeat app].
  replace (n / 4096) with (n / 16 / 16 / 16) by nlia.
  replace (n / 16 / 16 / 16 mod 16) with (n / 16 / 16 / 16) by nlia.
  replace (n / 256 mod 16) with (n / 16 / 16 mod 16) by nlia.
  reflexivity.
Qed.

Lemma hex4_format_04x n rest : n < 65536 ->
  exists a b c d,
    json.format_04x n ++ rest = a :: b :: c :: d :: rest
    /\ json.hex4 a b c d = Some n.
Proof.
  intros H. rewrite (format_04x_small n H).
  do 4 eexists. split; [reflexivity|].
  unfold json.hex4. rewrite !hexval_hexdigit by nlia.
  f_equal. nlia.
Qed.

Lemma scan_plain c rest chunks :
  json.ESCAPE_ASCII c = false ->
  json.scanstring (c :: rest) chunks = json.scanstring rest (c :: chunks).
Proof.
  unfold json.ESCAPE_ASCII. intros E.
  apply orb_false_iff in E. destruct E as [E1 E2].
  apply orb_false_iff in E1. destruct E1 as [Eb Eq].
  apply negb_false_iff, andb_true_iff in E2. destruct E2 as [L _].
  apply N.leb_le in L.
  cbn [json.scanstring]. rewrite Eq, Eb.
  destruct (N.ltb_spec c 32); [lia | reflexivity].
Qed.

(** A backslash-u escape that is not a high surrogate stands alone. *)
Lemma scan_u_single a b c d uni r2 chunks :
  json.hex4 a b c d = Some uni ->
  uni < 55296 \/ 56319 < uni ->
  json.scanstring (BACKSLASH :: 117 :: a :: b :: c :: d :: r2) chunks
  = json.scanstring r2 (uni :: chunks).
Proof.
  intros H U.
  assert (F : (55296 <=? uni) && (uni <=? 56319) = false).
  { apply andb_false_iff. rewrite N.leb_gt, N.leb_gt. lia. }
  cbn [json.scanstring].
  change (BACKSLASH =? QUOTE) with false. change (BACKSLASH =? BACKSLASH) with true.
  change (117 =? 117) with true. cbv iota.
  rewrite H.
  destruct r2 as [|bs [|u [|a2 [|b2 [|c2 [|d2 r3]]]]]]; try reflexivity.
  destruct (json.hex4 a2 b2 c2 d2); [|reflexivity].
  rewrite F. reflexivity.
Qed.

(** A high surrogate followed by a low one makes one character. *)
Lemma scan_u_pair a b c d a2 b2 c2 d2 hi lo r3 chunks :
  json.hex4 a b c d = Some hi -> json.hex4 a2 b2 c2 d2 = Some lo ->
  55296 <= hi <= 56319 -> 56320 <= lo <= 57343 ->
  json.scanstring
    (BACKSLASH :: 117 :: a :: b :: c :: d
       :: BACKSLASH :: 117 :: a2 :: b2 :: c2 :: d2 :: r3) chunks
  = json.scanstring r3
      (65536 + N.lor (N.shiftl (hi - 55296) 10) (lo - 56320) :: chunks).
Proof.
  intros H1 H2 Hhi Hlo.
  cbn [json.scanstring]. 
  change (BACKSLASH =? QUOTE) with false. change (BACKSLASH =? BACKSLASH) with true.
  change (117 =? 117) with true. cbv iota.
  rewrite H1, H2.
  destruct (N.leb_spec 55296 hi); [|lia].
  destruct (N.leb_spec hi 56319); [|lia].
  destruct (N.leb_spec 56320 lo); [|lia].
  destruct (N.leb_spec lo 57343); [|lia].
  reflexivity.
Qed.

Lemma scan_simple_escape e ch rest chunks :
  e <> 117 -> json.BACKSLASH_DCT e = Some ch ->
  json.scanstring (BACKSLASH :: e :: rest) chunks
  = json.scanstring rest (ch :: chunks).
Proof.
  intros Hu H. cbn [json.scanstring].
  change (BACKSLASH =? QUOTE) with false. change (BACKSLASH =? BACKSLASH) with true.
  cbv iota. destruct (N.eqb_spec e 117); [contradiction|].
  rewrite H. reflexivity.
Qed.

Lemma scan_u_escape n rest chunks :
  n < 55296 \/ 56319 < n < 65536 ->
  json.scanstring (lit "\u" ++ json.format_04x n ++ rest) chunks
  = json.scanstring rest (n :: chunks).
Proof.
  intros H.
  destruct (hex4_format_04x n rest) as (a & b & c & d & E & Hx); [lia|].
  rewrite E. apply (scan_u_single a b c d n rest chunks Hx). lia.
Qed.

Lemma surrogates_of c :
  65536 <= c < 1114112 ->
  let n := c - 65536 in
  N.lor 55296 (N.land (N.shiftr n 10) 1023) = 55296 + n / 1024
  /\ N.lor 56320 (N.land n 1023) = 56320 + n mod 1024.
Proof.
  intros H n. change 1023 with (2 ^ 10 - 1).
  rewrite !land_low, N.shiftr_div_pow2.
  rewrite (lor_lead 55296 _ 10), (lor_lead 56320 _ 10);
    change (2 ^ 10) with 1024; try (split; reflexivity); try reflexivity;
    try (apply N.mod_lt; discriminate).
  subst n. nlia.
Qed.

Lemma scan_pair_escape c rest chunks :
  65536 <= c < 1114112 ->
  let n := c - 65536 in
  json.scanstring
    (lit "\u" ++ json.format_04x (N.lor 55296 (N.land (N.shiftr n 10) 1023))
       ++ lit "\u" ++ json.format_04x (N.lor 56320 (N.land n 1023)) ++ rest)
    chunks
  = json.scanstring rest (c :: chunks).
Proof.
  intros H n. destruct (surrogates_of c H) as [E1 E2]. fold n in E1, E2.
  rewrite E1, E2.
  assert (Hn : n < 1048576) by (subst n; lia).
  destruct (hex4_format_04x (56320 + n mod 1024) rest)
    as (a2 & b2 & c2 & d2 & Eq2 & Hx2); [nlia|].
  rewrite Eq2.
  destruct (hex4_format_04x (55296 + n / 1024)
              (lit "\u" ++ a2 :: b2 :: c2 :: d2 :: rest))
    as (a & b & c' & d & Eq1 & Hx1); [nlia|].
  rewrite Eq1.
  change (lit "\u" ++ a :: b :: c' :: d
            :: lit "\u" ++ a2 :: b2 :: c2 :: d2 :: rest)
    with (BACKSLASH :: 117 :: a :: b :: c' :: d
            :: BACKSLASH :: 117 :: a2 :: b2 :: c2 :: d2 :: rest).
  rewrite (scan_u_pair a b c' d a2 b2 c2 d2 _ _ rest chunks Hx1 Hx2)
    by nlia.
  do 2 f_equal.
  replace (55296 + n / 1024 - 55296) with (n / 1024) by nlia.
  replace (56320 + n mod 1024 - 56320) with (n mod 1024) by nlia.
  rewrite lor_shiftl by (change (2 ^ 10) with 1024; nlia).
  change (2 ^ 10) with 1024. subst n. nlia.
Qed.

Lemma scan_esc c rest chunks :
  scalar c ->
  json.scanstring (esc c ++ rest) chunks = json.scanstring rest (c :: chunks).
Proof.
  intros Hc. unfold esc.
  destruct (json.ESCAPE_ASCII c) eqn:E; [|exact (scan_plain c rest chunks E)].
  unfold json.replace, json.ESCAPE_DCT.
  destruct (N.eqb_spec c BACKSLASH) as [->|N1];
    [apply scan_simple_escape; [discriminate | reflexivity]|].
  destruct (N.eqb_spec c QUOTE) as [->|N2];
    [apply scan_simple_escape; [discriminate | reflexivity]|].
  destruct (N.eqb_spec c 8) as [->|N3];
    [apply scan_simple_escape; [discriminate | reflexivity]|].
  destruct (N.eqb_spec c 12) as [->|N4];
    [apply scan_simple_escape; [discriminate | reflexivity]|].
  destruct (N.eqb_spec c 10) as [->|N5];
    [apply scan_simple_escape; [discriminate | reflexivity]|].
  destruct (N.eqb_spec c 13) as [->|N6];
    [apply scan_simple_escape; [discriminate | reflexivity]|].
  destruct (N.eqb_spec c 9) as [->|N7];
    [apply scan_simple_escape; [discriminate | reflexivity]|].
  destruct (N.ltb_spec c 32) as [L|L].
  { rewrite <- app_assoc. apply scan_u_escape. lia. }
  cbv zeta. destruct (N.ltb_spec c 65536) as [L'|L'].
  { rewrite <- app_assoc. apply scan_u_escape. unfold scalar in Hc. lia. }
  rewrite <- !app_assoc.
  apply scan_pair_escape. unfold scalar in Hc. lia.
Qed.

Lemma scan_string s : forall rest chunks,
  Forall scalar s ->
  json.scanstring (flat_map esc s ++ QUOTE :: rest) chunks
  = Some (rev chunks ++ s, rest).
Proof.
  induction s as [|c s IH]; intros rest chunks H.
  - cbn [flat_map app json.scanstring].
    change (QUOTE =? QUOTE) with true. cbv iota.
    rewrite app_nil_r. reflexivity.
  - cbn [flat_map]. rewrite <- app_assoc.
    rewrite scan_esc by (inversion H; assumption).
    rewrite IH by (inversion H; assumption).
    cbn [rev]. rewrite <- app_assoc. reflexivity.
Qed.

Lemma encode_basestring_ascii_app s rest :
  json.encode_basestring_ascii s ++ rest
  = QUOTE :: flat_map esc s ++ QUOTE :: rest.
Proof.
  unfold json.encode_basestring_ascii. fold esc.
  cbn [app]. rewrite <- app_assoc. reflexivity.
Qed.

Lemma quoted_encode s rest :
  Forall scalar s ->
  json.quoted (json.encode_basestring_ascii s ++ rest)
  = Some (s, json.skip_ws rest).
Proof.
  intros H. rewrite encode_basestring_ascii_app. cbn [json.quoted].
  change (QUOTE =? QUOTE) with true. cbv iota.
  rewrite (scan_string s rest [] H). reflexivity.
Qed.

Lemma skip_ws_encode s rest :
  json.skip_ws (json.encode_basestring_ascii s ++ rest)
  = json.encode_basestring_ascii s ++ rest.
Proof. rewrite encode_basestring_ascii_app. reflexivity. Qed.

Lemma members_step f k v R pairs :
  Forall scalar k -> Forall scalar v ->
  json.members (S f)
    (json.encode_basestring_ascii k ++ lit ": "
       ++ json.encode_basestring_ascii v ++ R) pairs
  = match json.skip_ws R with
    | sep :: r2 =>
        if sep =? 125 then Some (json.setitem pairs k v, r2)
        else if sep =? 44
             then json.members f (json.skip_ws r2) (json.setitem pairs k v)
             else None
    | [] => None
    end.
Proof.
  intros Hk Hv. cbn [json.members].
  rewrite (quoted_encode k _ Hk).
  change (json.skip_ws (lit ": " ++ json.encode_basestring_ascii v ++ R))
    with (58 :: 32 :: json.encode_basestring_ascii v ++ R).
  change (58 =? 58) with true. cbv iota.
  change (json.skip_ws (32 :: json.encode_basestring_ascii v ++ R))
    with (json.skip_ws (json.encode_basestring_ascii v ++ R)).
  rewrite skip_ws_encode, (quoted_encode v R Hv).
  destruct (json.skip_ws R); reflexivity.
Qed.

Lemma members_items items : forall fuel k v pairs tail,
  (List.length items < fuel)%nat ->
  scalar_item (k, v) -> Forall scalar_item items ->
  json.members fuel
    (json.encode_basestring_ascii k ++ lit ": "
       ++ json.encode_basestring_ascii v
       ++ json.iterencode_items false items ++ lit "}" ++ tail) pairs
  = Some (fold_left store items (json.setitem pairs k v), tail).
Proof.
  induction items as [|[k' v'] items IH]; intros fuel k v pairs tail Hf [Hk Hv] Hi;
    (destruct fuel as [|f]; [simpl in Hf; lia|]);
    rewrite (members_step f k v _ pairs Hk Hv).
  - reflexivity.
  - cbn [json.iterencode_items]. rewrite <- !app_assoc.
    change (json.skip_ws
              (lit ", " ++ json.encode_basestring_ascii k' ++ lit ": "
                 ++ json.encode_basestring_ascii v'
                 ++ json.iterencode_items false items ++ lit "}" ++ tail))
      with (44 :: 32 :: json.encode_basestring_ascii k' ++ lit ": "
                 ++ json.encode_basestring_ascii v'
                 ++ json.iterencode_items false items ++ lit "}" ++ tail).
    change (44 =? 125) with false. change (44 =? 44) with true. cbv iota.
    change (json.skip_ws (32 :: ?x)) with (json.skip_ws x).
    rewrite skip_ws_encode.
    inversion Hi as [|? ? Hkv Hrest]; subst.
    rewrite (IH f k' v' _ tail); [reflexivity | simpl in Hf; lia | exact Hkv | exact Hrest].
Qed.

Lemma iterencode_items_length items : forall first,
  (List.length items <= List.length (json.iterencode_items first items))%nat.
Proof.
  induction items as [|[k v] items IH]; intros first; [simpl; lia|].
  cbn [json.iterencode_items]. rewrite !length_app.
  specialize (IH false). unfold json.encode_basestring_ascii at 1.
  rewrite !length_app. simpl List.length. lia.
Qed.

Lemma setitem_fresh d k v :
  ~ In k (map fst d) -> json.setitem d k v = d ++ [(k, v)].
Proof.
  induction d as [|[k' v'] d IH]; intros H; [reflexivity|].
  cbn [json.setitem]. destruct (list_eq_dec N.eq_dec k' k) as [->|_].
  - destruct H. left. reflexivity.
  - cbn [app]. f_equal. apply IH. intros I. apply H. right. exact I.
Qed.

Lemma store_all_fresh items : forall d,
  NoDup (map fst (d ++ items)) -> fold_left store items d = d ++ items.
Proof.
  induction items as [|[k v] items IH]; intros d H.
  - rewrite app_nil_r. reflexivity.
  - cbn [fold_left]. unfold store at 2. cbn [fst snd].
    assert (F : ~ In k (map fst d)).
    { rewrite map_app in H. cbn [map fst] in H.
      apply NoDup_remove_2 in H. intros I. apply H.
      apply in_or_app. left. exact I. }
    rewrite (setitem_fresh d k v F).
    rewrite IH; rewrite <- app_assoc; [reflexivity | exact H].
Qed.

Lemma loads_dumps (d : dict) :
  NoDup (map fst d) -> Forall scalar_item d ->
  json.loads (json.dumps d) = Some d.
Proof.
  intros Hk Hs. destruct d as [|[k v] items]; [reflexivity|].
  inversion Hs as [|? ? Hkv Hitems]; subst.
  unfold json.dumps. cbn [json.iterencode_items app].
  set (body := json.encode_basestring_ascii k ++ lit ": "
                 ++ json.encode_basestring_ascii v
                 ++ json.iterencode_items false items).
  unfold json.loads.
  change (json.skip_ws (lit "{" ++ body ++ lit "}"))
    with (123 :: body ++ lit "}").
  cbv beta iota. change (123 =? 123) with true. cbv iota.
  assert (B : body ++ lit "}"
              = QUOTE :: flat_map esc k ++ QUOTE :: lit ": "
                  ++ json.encode_basestring_ascii v
                  ++ json.iterencode_items false items ++ lit "}").
  { subst body. rewrite <- !app_assoc. apply encode_basestring_ascii_app. }
  rewrite B. cbn [json.skip_ws].
  change (json.is_ws QUOTE) with false. cbv beta iota.
  change (QUOTE =? 125) with false. cbv iota. rewrite <- B. subst body. rewrite <- !app_assoc.
  rewrite <- (app_nil_r (lit "}")) at 2.
  rewrite (members_items items _ k v [] []); [| |exact Hkv|exact Hitems].
  - cbn [json.skip_ws json.setitem]. f_equal.
    apply (store_all_fresh items [(k, v)]). exact Hk.
  - pose proof (iterencode_items_length items false) as L.
    rewrite !length_app. simpl List.length. lia.
Qed.

(** ** The decimal Content-Length *)

Lemma fold_decimal_app s : forall a,
  Forall digit s ->
  fold_left (fun a c => 10 * a + (c - 48)) s a
  = a * 10 ^ N.of_nat (List.length s) + parse_decimal s.
Proof.
  unfold parse_decimal.
  induction s as [|c s IH]; intros a H; [cbn; lia|].
  inversion H as [|? ? Hc Hs]; subst.
  cbn [fold_left]. rewrite (IH (10 * a + (c - 48)) Hs), (IH (10 * 0 + (c - 48)) Hs).
  cbn [List.length]. rewrite Nat2N.inj_succ, N.pow_succ_r'. lia.
Qed.

Lemma dec_digits_spec fuel : forall n acc,
  n < 2 ^ N.of_nat fuel -> (0 < fuel)%nat -> Forall digit acc ->
  Forall digit (dec_digits fuel n acc)
  /\ parse_decimal (dec_digits fuel n acc)
     = n * 10 ^ N.of_nat (List.length acc) + parse_decimal acc.
Proof.
  induction fuel as [|fuel IH]; intros n acc Hn Hf Hacc; [lia|].
  cbn [dec_digits].
  assert (Hd : Forall digit ((48 + n mod 10) :: acc)).
  { constructor; [unfold digit; nlia | exact Hacc]. }
  assert (P : parse_decimal ((48 + n mod 10) :: acc)
              = n mod 10 * 10 ^ N.of_nat (List.length acc) + parse_decimal acc).
  { unfold parse_decimal at 1. cbn [fold_left].
    rewrite (fold_decimal_app acc _ Hacc). f_equal. f_equal. nlia. }
  destruct (N.eqb_spec (n / 10) 0) as [E|E].
  - split; [exact Hd|]. rewrite P. f_equal. f_equal. nlia.
  - assert (Hf' : (0 < fuel)%nat).
    { destruct fuel; [|lia]. cbn in Hn. nlia. }
    assert (Hn' : n / 10 < 2 ^ N.of_nat fuel).
    { rewrite Nat2N.inj_succ, N.pow_succ_r' in Hn.
      apply N.Div0.div_lt_upper_bound. lia. }
    destruct (IH (n / 10) _ Hn' Hf' Hd) as [D V].
    split; [exact D|]. rewrite V, P. cbn [List.length].
    rewrite Nat2N.inj_succ, N.pow_succ_r'.
    pose proof (N.div_mod' n 10). nia.
Qed.

(** [str(n)] is a string of digits that reads back as [n]. *)
Lemma decimal_spec n : Forall digit (decimal n) /\ parse_decimal (decimal n) = n.
Proof.
  unfold decimal.
  destruct (dec_digits_spec (S (N.to_nat (N.size n))) n []) as [D V].
  - rewrite Nat2N.inj_succ, N2Nat.id, N.pow_succ_r'.
    pose proof (N.size_gt n). lia.
  - lia.
  - constructor.
  - split; [exact D|]. rewrite V. cbn. lia.
Qed.

Lemma latin1_encode_small s :
  Forall (fun c => c < 256) s -> latin1_encode s = Some (map byte_of_N s).
Proof.
  induction 1 as [|c s Hc Hs IH]; [reflexivity|].
  cbn [latin1_encode map]. destruct (N.ltb_spec c 256); [|lia].
  rewrite IH. reflexivity.
Qed.

Lemma latin1_encode_length s : forall b,
  latin1_encode s = Some b -> List.length b = List.length s.
Proof.
  induction s as [|c s IH]; intros b E; cbn [latin1_encode] in E.
  - apply Some_inj in E. subst b. reflexivity.
  - destruct (c <? 256); [|discriminate].
    destruct (latin1_encode s) as [b'|]; [|discriminate].
    apply Some_inj in E. subst b. cbn [List.length]. f_equal.
    exact (IH b' eq_refl).
Qed.

(** A string of digits has no CR and no LF to fold. *)
Lemma digits_are_legal_value s :
  Forall digit s -> is_illegal_header_value (map byte_of_N s) = false.
Proof.
  induction 1 as [|c s Hc Hs IH]; [reflexivity|].
  unfold digit in Hc. cbn [map is_illegal_header_value].
  rewrite to_of_N by lia.
  destruct (N.eqb_spec c 10); [lia|]. destruct (N.eqb_spec c 13); [lia|].
  exact IH.
Qed.

Lemma content_length_line n :
  putheader (lit "Content-Length") (decimal n)
  = Ok (ascii_bytes (lit "Content-Length: " ++ decimal n)).
Proof.
  destruct (decimal_spec n) as [D _].
  unfold putheader.
  change (encoded (ascii_encode (lit "Content-Length")))
    with (Ok (ascii_bytes (lit "Content-Length"))).
  cbn [and_then].
  change (is_legal_header_name (ascii_bytes (lit "Content-Length"))) with true.
  cbn [negb].
  rewrite (latin1_encode_small (decimal n))
    by (revert D; apply Forall_impl; unfold digit; intros; lia).
  cbn [encoded and_then].
  rewrite (digits_are_legal_value (decimal n) D).
  unfold ascii_bytes. rewrite map_app. reflexivity.
Qed.

(** X11. For a connection to a plain ASCII host, a url that is a path, any
    [str] body and any caller headers that set neither Content-Length nor
    Transfer-Encoding: when [request] has a request to write, the octets
    it writes are header lines, among them one Content-Length line, a
    blank line, and the body; and the decimal value of that line is the
    number of body octets. *)
Theorem content_length_announces_body c method url body hs r :
  plain_host (host c) = true ->
  starts_with_http url = false ->
  member (lit "content-length") (map (fun kv => lower (fst kv)) hs) = false ->
  member (lit "transfer-encoding") (map (fun kv => lower (fst kv)) hs) = false ->
  encode_request c method url body hs = Ok r ->
  exists before after digits,
    r_octets r
    = join_lines (before ++ [ascii_bytes (lit "Content-Length: " ++ digits)]
                    ++ after)
        ++ r_body r
    /\ Forall digit digits
    /\ parse_decimal digits = N.of_nat (List.length (r_body r)).
Proof.
  intros _ _ Hcl Hte E. unfold encode_request in E.
  apply and_then_Ok in E. destruct E as (buffer & HL & E).
  apply and_then_Ok in E. destruct E as (b & LB & E).
  apply encoded_Ok in LB. apply Ok_inj in E. subst r. cbn [r_octets r_body].
  unfold header_lines in HL. rewrite Hcl, Hte in HL.
  apply and_then_Ok in HL. destruct HL as (head & _ & HL).
  rewrite content_length_line in HL. cbn [and_then] in HL.
  apply and_then_Ok in HL. destruct HL as (caller_lines & _ & HL).
  apply Ok_inj in HL. subst buffer.
  destruct (decimal_spec (N.of_nat (List.length body))) as [D V].
  exists head, caller_lines, (decimal (N.of_nat (List.length body))).
  split; [reflexivity|]. split; [exact D|].
  rewrite V, (latin1_encode_length body b LB). reflexivity.
Qed.

Lemma content_length_announces_body_witness :
  exists before after digits,
    r_octets generate_request
    = join_lines (before ++ [ascii_bytes (lit "Content-Length: " ++ digits)]
                    ++ after)
        ++ r_body generate_request
    /\ Forall digit digits
    /\ parse_decimal digits = N.of_nat (List.length (r_body generate_request)).
Proof.
  apply (content_length_announces_body conn (lit "POST") (lit "/generate")
           payload headers generate_request); reflexivity.
Defined.

Lemma utf8_decode_printable s :
  Forall printable s -> utf8_decode (map byte_of_N s) = Some s.
Proof.
  induction 1 as [|c s Hc Hs IH]; [reflexivity|].
  unfold printable in Hc. cbn [map utf8_decode].
  rewrite to_of_N by lia. destruct (N.ltb_spec c 128); [|lia].
  rewrite IH. reflexivity.
Qed.

(** X9. Whatever strings the dict holds, [json.dumps] writes printable
    ASCII only, so the Latin-1 encoding [request] applies to a [str] body
    cannot fail on it: it yields one octet per character, none above
    0x7F. *)
Theorem any_payload_encodes_to_ascii (obj : dict) :
  Forall printable (json.dumps obj)
  /\ exists b,
       latin1_encode (json.dumps obj) = Some b
       /\ List.length b = List.length (json.dumps obj)
       /\ Forall (fun x => Byte.to_N x <= 127) b.
Proof.
  pose proof (dumps_printable obj) as P. split; [exact P|].
  destruct (latin1_encode_printable (json.dumps obj) P) as (b & E & A).
  exists b. split; [exact E|]. split; [|exact A].
  exact (latin1_encode_length (json.dumps obj) b E).
Qed.

(** X10. For every dict with distinct keys whose strings hold Unicode
    scalar values, the text [json.dumps] writes parses back to the same
    dict, keys in order, and so does the body [request] puts on the wire
    for it. *)
Theorem json_object_round_trips (d : dict) :
  NoDup (map fst d) -> Forall scalar_item d ->
  json.loads (json.dumps d) = Some d
  /\ exists b, latin1_encode (json.dumps d) = Some b /\ loads_bytes b = Some d.
Proof.
  intros Hk Hs. pose proof (loads_dumps d Hk Hs) as L. split; [exact L|].
  pose proof (dumps_printable d) as P.
  exists (map byte_of_N (json.dumps d)). split.
  - apply latin1_encode_small. revert P. apply Forall_impl.
    unfold printable. intros; lia.
  - unfold loads_bytes. rewrite (utf8_decode_printable _ P). exact L.
Qed.

Lemma json_object_round_trips_witness :
  json.loads (json.dumps sample_object) = Some sample_object
  /\ exists b, latin1_encode (json.dumps sample_object) = Some b
               /\ loads_bytes b = Some sample_object.
Proof.
  apply (json_object_round_trips sample_object).
  - constructor; [intros [H|[]]; discriminate H|].
    constructor; [intros []|constructor].
  - repeat first [ apply Forall_nil | apply Forall_cons | split
                 | (unfold scalar; cbn; lia) ].
Defined.
